(** * Verification of pyzjr's [visualize/core.py]

    A shallow embedding of the frame-rate meter [FPS], the stopwatch [Timer],
    the scoped timer [Runcodes] and the colour detector [ColorFind], followed
    by the properties of their specification.

    Conventions of the embedding.
    - A Python method is a computation in the monad [M O], which threads the
      receiver ([self], of class [O]) and the outside world (clock, standard
      output, logging, the HighGUI trackbars) and which may raise.
    - Python's dynamically typed values are the inductive [value].
    - Clock readings and the numbers computed from them are exact rationals
      ([Qc]).  Every finite binary64 number is one; rounding and overflow of
      the arithmetic are not modelled there.  The two arithmetic facts the
      control flow depends on (a difference is zero exactly when its operands
      are equal, and dividing by zero raises [ZeroDivisionError]) are the
      same for both.
    - Where a property depends on how additions round, the samples are
      binary64 numbers, Rocq's primitive floats ([Binary64], [Timer64]).
    - OpenCV is an interface ([Cv2]): its drawing and colour routines are
      parameters of the development. *)

From Stdlib Require Import ZArith QArith Qcanon Lia PrimFloat.
From stdpp Require Import base tactics option list strings pretty numbers gmap.

Set Warnings "-register-all".
Local Open Scope Z_scope.

(** ** Python values, exceptions and effects *)

Module Py.

Inductive exn : Type :=
| ZeroDivisionError
| TypeError
| ValueError
| IndexError
| AttributeError
| Cv2Error.

Inductive outcome (A : Type) : Type :=
| Return (a : A)
| Raise (e : exn).
Arguments Return {A} a.
Arguments Raise {A} e.

(** A numpy array: a vector of bounds, or an image of one channel (a
    mask, [uint8]) or of three (BGR or HSV), stored by rows. *)
Inductive ndarray : Type :=
| Vector (xs : list Z)
| Gray (rows : list (list Z))
| Colour (rows : list (list (Z * Z * Z))).

Inductive value : Type :=
| VNone
| VInt (z : Z)
| VFloat (q : Qc)
| VStr (s : string)
| VList (l : list value)
| VTuple (l : list value)
| VArray (a : ndarray).

(** The world outside the interpreter.  [readings k] is what the [k]-th
    call of [time.time()] returns and [ticks] counts the calls made so far;
    [stdout] and [warnings] hold the lines printed and logged, oldest
    first; [windows] maps a HighGUI window to its size and [trackbars]
    maps (bar, window) to the position and the maximum of a trackbar. *)
Record world : Type := World {
  ticks : nat;
  readings : nat → Qc;
  stdout : list string;
  warnings : list string;
  windows : gmap string (option (Z * Z));
  trackbars : gmap (string * string) (Z * Z)
}.

Definition tick (w : world) : world :=
  World (S (ticks w)) (readings w) (stdout w) (warnings w) (windows w)
        (trackbars w).
Definition emit (line : string) (w : world) : world :=
  World (ticks w) (readings w) (stdout w ++ [line]) (warnings w)
        (windows w) (trackbars w).
Definition warn (msg : string) (w : world) : world :=
  World (ticks w) (readings w) (stdout w) (warnings w ++ [msg])
        (windows w) (trackbars w).
Definition set_window (name : string) (size : option (Z * Z)) (w : world)
  : world :=
  World (ticks w) (readings w) (stdout w) (warnings w)
        (<[name := size]> (windows w)) (trackbars w).
Definition set_trackbar (bar window : string) (pos count : Z) (w : world)
  : world :=
  World (ticks w) (readings w) (stdout w) (warnings w) (windows w)
        (<[(bar, window) := (pos, count)]> (trackbars w)).

(** The state a method runs in: its receiver and the world. *)
Record st (O : Type) : Type := St { self : O; env : world }.
Arguments St {O} self env.
Arguments self {O} s.
Arguments env {O} s.

Definition M (O A : Type) : Type := st O → outcome A * st O.

Definition ret {O A} (a : A) : M O A := λ s, (Return a, s).

Definition bind {O A B} (m : M O A) (k : A → M O B) : M O B :=
  λ s, match m s with
       | (Return a, s') => k a s'
       | (Raise e, s') => (Raise e, s')
       end.

Definition raise {O A} (e : exn) : M O A := λ s, (Raise e, s).

(** [try: body except: handler]: the handler runs in the state the body
    had reached when it raised. *)
Definition try_except {O A} (body : M O A) (handler : M O A) : M O A :=
  λ s, match body s with
       | (Return a, s') => (Return a, s')
       | (Raise _, s') => handler s'
       end.

(** [try: body finally: final], as the [with] statement needs it. *)
Definition try_finally {O A} (body : M O A) (final : M O unit) : M O A :=
  λ s, match body s with
       | (r, s') =>
           match final s' with
           | (Return _, s'') => (r, s'')
           | (Raise e, s'') => (Raise e, s'')
           end
       end.

Definition lift {O A} (r : outcome A) : M O A := λ s, (r, s).

Definition getattr {O B} (field : O → B) : M O B :=
  λ s, (Return (field (self s)), s).

Definition setattr {O} (update : O → O) : M O unit :=
  λ s, (Return tt, St (update (self s)) (env s)).

(** Running a method of another object [o] from a method of [self]. *)
Definition call {O O' A} (o : O') (m : M O' A) : M O (A * O') :=
  λ s, match m (St o (env s)) with
       | (Return a, s') => (Return (a, self s'), St (self s) (env s'))
       | (Raise e, s') => (Raise e, St (self s) (env s'))
       end.

(** [time.time()] *)
Definition time_time {O} : M O Qc :=
  λ s, (Return (readings (env s) (ticks (env s))),
        St (self s) (tick (env s))).

(** [print(line)] *)
Definition print {O} (line : string) : M O unit :=
  λ s, (Return tt, St (self s) (emit line (env s))).

(** [logging.warning(msg)] *)
Definition logging_warning {O} (msg : string) : M O unit :=
  λ s, (Return tt, St (self s) (warn msg (env s))).

(** [num / den] on floats *)
Definition truediv (num den : Qc) : outcome Qc :=
  if decide (den = 0%Qc) then Raise ZeroDivisionError
  else Return (num / den)%Qc.

(** [int(x)] on a float: truncation towards zero *)
Definition int_of_float (x : Qc) : Z :=
  Z.quot (Qnum x) (Zpos (Qden x)).

(** [str(n)] on an int *)
Definition str_of_int (n : Z) : string := pretty n.

(** Numbers as Python's arithmetic sees them: an int is widened to a
    float when it meets one. *)
Definition as_float (v : value) : option Qc :=
  match v with
  | VInt z => Some (Qc_of_Z z)
  | VFloat q => Some q
  | _ => None
  end.

(** [a + b] *)
Definition py_add (a b : value) : outcome value :=
  match a, b with
  | VInt x, VInt y => Return (VInt (x + y))
  | _, _ =>
      match as_float a, as_float b with
      | Some x, Some y => Return (VFloat (x + y)%Qc)
      | _, _ => Raise TypeError
      end
  end.

(** [a / b]: true division, also of two ints *)
Definition py_truediv (a b : value) : outcome value :=
  match as_float a, as_float b with
  | Some x, Some y =>
      match truediv x y with
      | Return q => Return (VFloat q)
      | Raise e => Raise e
      end
  | _, _ => Raise TypeError
  end.

(** [sum(xs)]: a left fold of [+] that starts from the int [0] *)
Fixpoint sum_from (acc : value) (xs : list value) : outcome value :=
  match xs with
  | [] => Return acc
  | x :: xs' =>
      match py_add acc x with
      | Return acc' => sum_from acc' xs'
      | Raise e => Raise e
      end
  end.
Definition py_sum (xs : list value) : outcome value := sum_from (VInt 0) xs.

(** [numpy.cumsum] of a vector of floats: each output is the previous
    output plus the next input. *)
Fixpoint cumsum_from (acc : Qc) (xs : list Qc) : list Qc :=
  match xs with
  | [] => []
  | x :: xs' => (acc + x)%Qc :: cumsum_from (acc + x)%Qc xs'
  end.
Definition np_cumsum (xs : list Qc) : list Qc :=
  match xs with
  | [] => []
  | x :: xs' => x :: cumsum_from x xs'
  end.

(** [xs[-1]] *)
Definition getitem_last {A} (xs : list A) : outcome A :=
  match last xs with
  | Some x => Return x
  | None => Raise IndexError
  end.

(** [v[i]] for a literal index [i >= 0]; an array is indexed along its
    first axis. *)
Definition getitem (v : value) (i : nat) : outcome value :=
  match v with
  | VList l | VTuple l =>
      match l !! i with
      | Some x => Return x
      | None => Raise IndexError
      end
  | VStr s =>
      match String.get i s with
      | Some c => Return (VStr (String c EmptyString))
      | None => Raise IndexError
      end
  | VArray (Vector xs) =>
      match xs !! i with
      | Some x => Return (VInt x)
      | None => Raise IndexError
      end
  | VArray (Gray rows) =>
      match rows !! i with
      | Some row => Return (VArray (Vector row))
      | None => Raise IndexError
      end
  | VArray (Colour rows) =>
      match rows !! i with
      | Some row =>
          Return (VArray (Gray ((λ '(b, g, r), [b; g; r]) <$> row)))
      | None => Raise IndexError
      end
  | _ => Raise TypeError
  end.

(** [a, b = v] *)
Definition unpack2 (v : value) : outcome (value * value) :=
  match v with
  | VList [a; b] | VTuple [a; b] => Return (a, b)
  | VList _ | VTuple _ => Raise ValueError
  | _ => Raise TypeError
  end.

(** [numpy.array(v)] on a list of ints.  What numpy makes of other objects
    (and whether it raises on a list it cannot make rectangular) differs
    between its versions and is not modelled: they are handed on as they
    are, for the callee to reject. *)
Fixpoint ints_of (l : list value) : option (list Z) :=
  match l with
  | [] => Some []
  | VInt z :: l' => cons z <$> ints_of l'
  | _ => None
  end.
Definition np_array (v : value) : value :=
  match v with
  | VList l =>
      match ints_of l with
      | Some zs => VArray (Vector zs)
      | None => v
      end
  | _ => v
  end.

(** *** Formatting a float with [:.<prec>f]

    The decimal expansion correctly rounded to [prec] places; a tie goes
    to the even neighbour.  The sign is that of the number, also when the
    digits round to zero. *)
Definition round_half_even (n d : Z) : Z :=
  let q := n / d in
  match (2 * (n mod d)) ?= d with
  | Lt => q
  | Gt => q + 1
  | Eq => if Z.even q then q else q + 1
  end.

Definition zfill (width : nat) (s : string) : string :=
  String.concat "" (replicate (width - String.length s) "0") +:+ s.

Definition format_f (prec : nat) (x : Qc) : string :=
  let scale := 10 ^ Z.of_nat prec in
  let n := round_half_even (Z.abs (Qnum x) * scale) (Zpos (Qden x)) in
  let sign := if decide (Qnum x < 0) then "-" else "" in
  let frac :=
    match prec with
    | O => ""
    | _ => "." +:+ zfill prec (pretty (n mod scale))
    end in
  sign +:+ pretty (n / scale) +:+ frac.

(** *** Basic slices of an array axis

    [slice_bound n i] is where the bound [i] of [a[i:j]] falls on an axis
    of length [n]: a negative bound counts from the end and every bound is
    clipped to the axis. *)
Definition slice_bound (n : nat) (i : Z) : nat :=
  Z.to_nat (if i <? 0 then Z.max (i + Z.of_nat n) 0
            else Z.min i (Z.of_nat n)).

(** Whether index [i] of an axis of length [n] lies in the slice
    [start:stop]. *)
Definition in_slice (n : nat) (start stop : Z) (i : nat) : bool :=
  bool_decide (slice_bound n start ≤ i < slice_bound n stop)%nat.

(** [row[start:stop] = fill] *)
Definition fill_slice {A} (fill : A) (start stop : Z) (row : list A)
  : list A :=
  let lo := slice_bound (length row) start in
  let hi := slice_bound (length row) stop in
  take lo row ++ replicate (hi - lo) fill ++ drop (lo + (hi - lo)) row.

(** [m[y0:y1, x0:x1] = fill] on an array stored by rows *)
Definition fill_region {A} (fill : A) (y0 y1 x0 x1 : Z)
    (rows : list (list A)) : list (list A) :=
  let lo := slice_bound (length rows) y0 in
  let hi := slice_bound (length rows) y1 in
  take lo rows
    ++ (fill_slice fill x0 x1 <$> take (hi - lo) (drop lo rows))
    ++ drop (lo + (hi - lo)) rows.

(** [a[y0:y1, x0:x1] = 0]; a vector has one axis only. *)
Definition setitem_region (a : value) (y0 y1 x0 x1 : Z) : outcome value :=
  match a with
  | VArray (Gray rows) =>
      Return (VArray (Gray (fill_region 0 y0 y1 x0 x1 rows)))
  | VArray (Colour rows) =>
      Return (VArray (Colour (fill_region (0, 0, 0) y0 y1 x0 x1 rows)))
  | VArray (Vector _) => Raise IndexError
  | _ => Raise TypeError
  end.

End Py.

Import Py.

Declare Scope py_scope.
Delimit Scope py_scope with py.
Notation "x <- m ;; k" := (bind m (λ x, k))
  (at level 100, m at next level, right associativity) : py_scope.
Notation "m ;;; k" := (bind m (λ _, k))
  (at level 100, right associativity) : py_scope.
Local Open Scope py_scope.

(** ** The OpenCV interface

    What [core.py] asks of [cv2]'s image routines.  Each returns the image it
    produces, or raises when it rejects its arguments.  [putText] draws on the
    image it is given and [update] hands that same image back, so the result
    of [putText] is also the caller's image after the call. *)

Class Cv2 : Type := {
  putText : value → string → Z * Z → Z → Qc → Z * Z * Z → Z → outcome value;
  cvtColor : value → Z → outcome value;
  inRange : value → value → value → outcome value;
  bitwise_and : value → value → value → outcome value
}.

Definition FONT_HERSHEY_PLAIN : Z := 1.
Definition COLOR_BGR2HSV : Z := 40.

(** The HighGUI calls act on the windows and trackbars of the world.  They
    are modelled for an OpenCV built with a window backend; without one
    [cv2.namedWindow] raises, and what [cv2.getTrackbarPos] does for a
    trackbar that does not exist depends on the backend.  No statement below
    rests on these calls succeeding or failing. *)
Definition namedWindow {O} (name : string) : M O unit :=
  λ s, (Return tt, St (self s) (set_window name None (env s))).

Definition resizeWindow {O} (name : string) (width height : Z) : M O unit :=
  λ s, match windows (env s) !! name with
       | Some _ =>
           (Return tt,
            St (self s) (set_window name (Some (width, height)) (env s)))
       | None => (Raise Cv2Error, s)
       end.

Definition createTrackbar {O} (bar window : string) (pos count : Z)
  : M O unit :=
  λ s, (Return tt, St (self s) (set_trackbar bar window pos count (env s))).

Definition getTrackbarPos {O} (bar window : string) : M O value :=
  λ s, match trackbars (env s) !! (bar, window) with
       | Some (pos, _) => (Return (VInt pos), s)
       | None => (Raise Cv2Error, s)
       end.

(** ** class FPS *)

Module FPS.

Record t : Type := Obj { pTime : Qc }.

Definition __init__ : M unit t :=
  now <- time_time ;;
  ret (Obj now).

Definition default_pos : Z * Z := (20, 50).
Definition default_color : Z * Z * Z := (255, 0, 0).
Definition default_scale : Qc := Qc_of_Z 3.
Definition default_thickness : Z := 3.

Definition update `{Cv2} (img : value) (pos : Z * Z) (color : Z * Z * Z)
    (scale : Qc) (thickness : Z) : M t value :=
  cTime <- time_time ;;
  try_except
    (previous <- getattr pTime ;;
     fps <- lift (truediv 1 (cTime - previous)) ;;
     setattr (λ _, Obj cTime) ;;;
     match img with
     | VNone => ret (VFloat fps)
     | _ =>
         img' <- lift (putText img
                         ("FPS: " +:+ str_of_int (int_of_float fps))
                         pos FONT_HERSHEY_PLAIN scale color thickness) ;;
         ret (VTuple [VFloat fps; img'])
     end)
    (ret (VInt 0)).

End FPS.

(** ** class Timer *)

Module Timer.

Record t : Type := Obj { times : list Qc; gap : Qc }.

Definition start : M t unit :=
  now <- time_time ;;
  setattr (λ o, Obj (times o) now).

(** [self.times = []], then [self.start()].  The object [start] runs on has
    no [gap] yet; the field is written before it is ever read. *)
Definition __init__ : M unit t :=
  r <- call (Obj [] 0%Qc) start ;;
  ret (snd r).

Definition stop : M t value :=
  now <- time_time ;;
  g <- getattr gap ;;
  setattr (λ o, Obj (times o ++ [(now - g)%Qc]) (gap o)) ;;;
  ts <- getattr times ;;
  x <- lift (getitem_last ts) ;;
  ret (VFloat x).

Definition avg : M t value :=
  ts <- getattr times ;;
  total <- lift (py_sum (VFloat <$> ts)) ;;
  lift (py_truediv total (VInt (Z.of_nat (length ts)))).

Definition total : M t value :=
  ts <- getattr times ;;
  lift (py_sum (VFloat <$> ts)).

Definition cumsum : M t value :=
  ts <- getattr times ;;
  ret (VList (VFloat <$> np_cumsum ts)).

End Timer.

(** ** class Runcodes and the [with] statement *)

Module Runcodes.

(** [timer] is absent until [__enter__] has run. *)
Record t : Type := Obj { description : string; timer : option Timer.t }.

Definition __init__ (description : option string) : M unit t :=
  ret (Obj (default "Done" description) None).

(** Returns [self], the receiver. *)
Definition __enter__ : M t unit :=
  tm <- call tt Timer.__init__ ;;
  setattr (λ o, Obj (description o) (Some (fst tm))).

(** [args] is the exception triple of the [with] statement; it is not
    looked at. *)
Definition __exit__ (args : list value) : M t value :=
  d <- getattr description ;;
  tm <- getattr timer ;;
  match tm with
  | None => raise AttributeError
  | Some tm =>
      r <- call tm Timer.stop ;;
      setattr (λ o, Obj (description o) (Some (snd r))) ;;;
      match fst r with
      | VFloat elapsed =>
          print (d +:+ ": " +:+ format_f 7 elapsed +:+ " sec") ;;;
          ret VNone
      | _ => raise TypeError
      end
  end.

(** [with Runcodes(description): body].  [__exit__] returns [None], so an
    exception of the body is not swallowed: it propagates once [__exit__]
    has run. *)
Definition with_ {A} (description : option string) (body : M unit A)
  : M unit A :=
  mgr <- __init__ description ;;
  entered <- call mgr __enter__ ;;
  try_finally body
    (call (snd entered) (__exit__ [VNone; VNone; VNone]) ;;; ret tt).

End Runcodes.

(** ** class ColorFind *)

Module ColorFind.

Record t : Type := Obj { trackBar : bool; name : string }.

Definition initTrackbars : M t unit :=
  window <- getattr name ;;
  namedWindow window ;;;
  resizeWindow window 640 240 ;;;
  createTrackbar "Hue Min" window 0 179 ;;;
  createTrackbar "Hue Max" window 179 179 ;;;
  createTrackbar "Sat Min" window 0 255 ;;;
  createTrackbar "Sat Max" window 255 255 ;;;
  createTrackbar "Val Min" window 0 255 ;;;
  createTrackbar "Val Max" window 255 255.

Definition default_trackBar : bool := false.
Definition default_name : string := "Bars".

Definition __init__ (trackBar : bool) (name : string) : M unit t :=
  r <- call (Obj trackBar name)
         (if trackBar then initTrackbars else ret tt) ;;
  ret (snd r).

Definition getTrackbarValues : M t value :=
  window <- getattr name ;;
  hmin <- getTrackbarPos "Hue Min" window ;;
  smin <- getTrackbarPos "Sat Min" window ;;
  vmin <- getTrackbarPos "Val Min" window ;;
  hmax <- getTrackbarPos "Hue Max" window ;;
  smax <- getTrackbarPos "Sat Max" window ;;
  vmax <- getTrackbarPos "Val Max" window ;;
  ret (VList [VList [hmin; smin; vmin]; VList [hmax; smax; vmax]]).

(** [threshold] is [None] or a list of ints; [threshold[:4]] must unpack
    into four names. *)
Definition protect_region (mask : value) (threshold : option (list Z))
  : M t value :=
  match threshold with
  | None => ret mask
  | Some th =>
      match take 4 th with
      | [x_start; x_end; y_start; y_end] =>
          lift (setitem_region mask y_start y_end x_start x_end)
      | _ => raise ValueError
      end
  end.

Definition MaskZone `{Cv2} (img HsvVals : value) : M t value :=
  imgHSV <- lift (cvtColor img COLOR_BGR2HSV) ;;
  lo <- lift (getitem HsvVals 0) ;;
  let lower := np_array lo in
  hi <- lift (getitem HsvVals 1) ;;
  let upper := np_array hi in
  mask <- lift (inRange imgHSV lower upper) ;;
  imgResult <- lift (bitwise_and img img mask) ;;
  ret (VTuple [imgResult; mask]).

Definition hsv (lower upper : Z * Z * Z) : value :=
  let triple '(h, s, v) := VList [VInt h; VInt s; VInt v] in
  VList [triple lower; triple upper].

(** [v == lit] for a string literal [lit] *)
Definition eq_str (v : value) (lit : string) : bool :=
  match v with
  | VStr s => bool_decide (s = lit)
  | _ => false
  end.

Definition getColorHSV (myColor : value) : M t value :=
  if eq_str myColor "red" then
    ret (hsv (146, 141, 77) (179, 255, 255))
  else if eq_str myColor "green" then
    ret (hsv (44, 79, 111) (79, 255, 255))
  else if eq_str myColor "blue" then
    ret (hsv (103, 68, 130) (128, 255, 255))
  else
    logging_warning "Color Not Defined" ;;;
    logging_warning "Available colors: red, green, blue " ;;;
    ret VNone.

Definition isinstance_str (v : value) : bool :=
  match v with VStr _ => true | _ => false end.

(** The source initialises [imgColor = [],] with a trailing comma: a
    one-element tuple that holds the empty list. *)
Definition update `{Cv2} (img myColor : value) : M t value :=
  let imgColor := VTuple [VList []] in
  let mask := VList [] in
  sliders <- getattr trackBar ;;
  myColor <- (if sliders : bool then getTrackbarValues else ret myColor) ;;
  myColor <- (if isinstance_str myColor then getColorHSV myColor
              else ret myColor) ;;
  match myColor with
  | VNone => ret (VTuple [imgColor; mask])
  | _ =>
      both <- MaskZone img myColor ;;
      pair <- lift (unpack2 both) ;;
      ret (VTuple [fst pair; snd pair])
  end.

End ColorFind.

(** ** The decorator [timing] *)

Module Timing.

(** [time.perf_counter()] is a clock of its own, apart from the one behind
    [time.time()].  Code that reads it runs with the state of that clock as
    its receiver: [perf_readings k] is the [k]-th reading and [perf_ticks]
    counts the readings made. *)
Record perf : Type := Perf { perf_ticks : nat; perf_readings : nat → Qc }.

Definition perf_counter : M perf Qc :=
  λ s, let c := self s in
       (Return (perf_readings c (perf_ticks c)),
        St (Perf (S (perf_ticks c)) (perf_readings c)) (env s)).

(** A Python function: its [__name__] and what calling it with positional
    and keyword arguments does. *)
Record callable : Type := Callable {
  __name__ : string;
  __call__ : list value → list (string * value) → M perf value
}.

(** [print(a, b, ..., flush=True)]: the arguments, one space between them *)
Definition print_args {O} (args : list string) : M O unit :=
  print (String.concat " " args).

(** The largest C [int]: CPython takes no precision above it. *)
Definition INT_MAX : Z := 2147483647.

(** ["{:.{}f}".format(x, decimal)]: a negative precision is no format
    specifier, and one above [INT_MAX] is too big; both are a
    [ValueError]. *)
Definition format_float (x : Qc) (decimal : Z) : outcome string :=
  if decide (decimal < 0) then Raise ValueError
  else if decide (INT_MAX < decimal) then Raise ValueError
  else Return (format_f (Z.to_nat decimal) x).


(** [timing(decimal)(function)].  [@wraps(function)] gives the wrapper the
    name of the function it wraps. *)
Definition timing (decimal : Z) (function : callable) : callable :=
  Callable (__name__ function)
    (λ args kwargs,
       print_args [__name__ function] ;;;
       start <- perf_counter ;;
       res <- __call__ function args kwargs ;;
       end_ <- perf_counter ;;
       let execution_time := (end_ - start)%Qc in
       format_string <- lift (format_float execution_time decimal) ;;
       print_args [__name__ function; "delta time (s) ="; format_string] ;;;
       ret res).

End Timing.

(** ** Sequences of calls

    A client of a [Timer] calls [start()] and [stop()] in some order; the
    statements about what a timer keeps are made for every such order. *)

Inductive Timer_call : Type := CallStart | CallStop.

Fixpoint Timer_calls (calls : list Timer_call) : M Timer.t unit :=
  match calls with
  | [] => ret tt
  | CallStart :: calls' => Timer.start ;;; Timer_calls calls'
  | CallStop :: calls' => Timer.stop ;;; Timer_calls calls'
  end.

Fixpoint stops (calls : list Timer_call) : nat :=
  match calls with
  | [] => 0
  | CallStart :: calls' => stops calls'
  | CallStop :: calls' => S (stops calls')
  end.

(** A clock that never runs backwards. *)
Definition nondecreasing (w : world) : Prop :=
  ∀ i j : nat, (i ≤ j)%nat → (readings w i ≤ readings w j)%Qc.

(** ** Binary64 samples

    What a [Timer] reports of its samples depends on how additions round and
    on how the interpreter's [sum()] adds.  Here the samples are binary64
    numbers, and the three queries of [Timer] are modelled once more, on
    such samples. *)

Module Binary64.

(** How [sum()] adds floats: one after the other (CPython up to 3.11), or
    with Neumaier's compensation (CPython 3.12 and later). *)
Inductive summation : Type := Plain | Compensated.

(** What [sum()] returns: an int or a float. *)
Inductive number : Type :=
| Int (z : Z)
| Float (f : float).

(** [float(n)] for a length [n]; exact below [2^53]. *)
Fixpoint float_of_nat (n : nat) : float :=
  match n with
  | O => 0%float
  | S n' => (float_of_nat n' + 1)%float
  end.

(** The loop of CPython 3.12's [sum()] over floats: [f] is the running sum
    and [c] the compensation, which is added at the end when it is finite
    and not zero. *)
Fixpoint neumaier (f c : float) (xs : list float) : float :=
  match xs with
  | [] => if negb (is_zero c) && is_finite c then (f + c)%float else f
  | x :: xs' =>
      let t := (f + x)%float in
      let c' := if (abs x <=? abs f)%float then (c + ((f - t) + x))%float
                else (c + ((x - t) + f))%float in
      neumaier t c' xs'
  end.

Definition sum_floats (how : summation) (start : float) (xs : list float)
  : float :=
  match how with
  | Plain => fold_left PrimFloat.add xs start
  | Compensated => neumaier start 0%float xs
  end.

(** [sum(xs)] on a list of floats: the int [0] for the empty list;
    otherwise [0 + xs[0]] is a float, to which the other elements are
    added. *)
Definition py_sum (how : summation) (xs : list float) : number :=
  match xs with
  | [] => Int 0
  | x0 :: rest => Float (sum_floats how (0 + x0)%float rest)
  end.

(** [numpy.cumsum] on float64: each output is the previous output plus the
    next input, rounded. *)
Fixpoint cumsum_from (acc : float) (xs : list float) : list float :=
  match xs with
  | [] => []
  | x :: xs' => (acc + x)%float :: cumsum_from (acc + x)%float xs'
  end.
Definition np_cumsum (xs : list float) : list float :=
  match xs with
  | [] => []
  | x :: xs' => x :: cumsum_from x xs'
  end.

End Binary64.

(** The queries of [Timer] on binary64 samples; [times] is [self.times]. *)
Module Timer64.

(** [sum(self.times) / len(self.times)]: the sum is an int only for the
    empty list, and then the division is [0 / 0]. *)
Definition avg (how : Binary64.summation) (times : list float)
  : outcome Binary64.number :=
  match Binary64.py_sum how times with
  | Binary64.Float total =>
      Return (Binary64.Float
                (total / Binary64.float_of_nat (length times))%float)
  | Binary64.Int _ => Raise ZeroDivisionError
  end.

Definition total (how : Binary64.summation) (times : list float)
  : Binary64.number :=
  Binary64.py_sum how times.

Definition cumsum (times : list float) : list float :=
  Binary64.np_cumsum times.

End Timer64.

(** ** Sample inputs

    A world whose clock advances one second per reading, a world whose clock
    stands still, and an OpenCV that accepts every image and draws nothing.
    They are the concrete inputs of the examples below. *)

Definition running_clock : world :=
  World 0 (λ k, Qc_of_Z (Z.of_nat k)) [] [] ∅ ∅.

Definition stopped_clock (now : Qc) : world :=
  World 0 (λ _, now) [] [] ∅ ∅.


(** Ten samples of a tenth of a second, in binary64. *)
Definition ten_tenths : list float :=
  replicate 10 0x1.999999999999ap-4%float.

Definition blank_cv2 : Cv2 := {|
  putText img _ _ _ _ _ _ :=
    match img with VArray _ => Return img | _ => Raise Cv2Error end;
  cvtColor img _ :=
    match img with VArray _ => Return img | _ => Raise Cv2Error end;
  inRange img _ _ :=
    match img with VArray _ => Return img | _ => Raise Cv2Error end;
  bitwise_and img _ _ :=
    match img with VArray _ => Return img | _ => Raise Cv2Error end
|}.

(** A performance counter that advances one second per reading, and the
    function of the source's own test, which sleeps and returns [None]. *)
Definition running_perf : Timing.perf :=
  Timing.Perf 0 (λ k, Qc_of_Z (Z.of_nat k)).

Definition test_function : Timing.callable :=
  Timing.Callable "test_function" (λ _ _, ret VNone).

Definition failing_function : Timing.callable :=
  Timing.Callable "failing_function" (λ _ _, raise TypeError).

(** The sum of a sequence of numbers, as mathematics writes it; the proofs
    about the running sums of [Timer.cumsum] go through it. *)
Definition Qc_sum (xs : list Qc) : Qc := foldr Qcplus 0%Qc xs.

(** ** Properties of [FPS] *)

Lemma Qc_sub_zero_eq (a b : Qc) : (a - b = 0 → a = b)%Qc.
Proof.
  intros Hd. rewrite <- (Qcplus_0_l b), <- Hd. ring.
Qed.

Lemma truediv_zero (num : Qc) : truediv num 0%Qc = Raise ZeroDivisionError.
Proof. unfold truediv. by rewrite decide_True. Qed.

Lemma truediv_nonzero (num den : Qc) :
  den ≠ 0%Qc → truediv num den = Return (num / den)%Qc.
Proof. intros Hne. unfold truediv. by rewrite decide_False. Qed.

(** How [update] runs, by the two outcomes of the division. *)
Lemma FPS_update_failed_division `{Cv2} (o : FPS.t) (w : world)
    (img : value) pos color scale thickness :
  (readings w (ticks w) - FPS.pTime o = 0)%Qc →
  FPS.update img pos color scale thickness (St o w)
  = (Return (VInt 0), St o (tick w)).
Proof.
  intros Hzero.
  unfold FPS.update, bind, try_except, time_time, getattr, lift; simpl.
  by rewrite Hzero, truediv_zero.
Qed.

Lemma FPS_update_no_image `{Cv2} (o : FPS.t) (w : world)
    pos color scale thickness :
  let cTime := readings w (ticks w) in
  (cTime - FPS.pTime o ≠ 0)%Qc →
  FPS.update VNone pos color scale thickness (St o w)
  = (Return (VFloat (1 / (cTime - FPS.pTime o))%Qc),
     St (FPS.Obj cTime) (tick w)).
Proof.
  intros cTime Hne.
  unfold FPS.update, bind, try_except, time_time, getattr, setattr, lift;
    simpl.
  by rewrite truediv_nonzero.
Qed.

Lemma FPS_update_image `{Cv2} (o : FPS.t) (w : world)
    (img : value) pos color scale thickness :
  let cTime := readings w (ticks w) in
  let fps := (1 / (cTime - FPS.pTime o))%Qc in
  let drawn := putText img ("FPS: " +:+ str_of_int (int_of_float fps)) pos
                 FONT_HERSHEY_PLAIN scale color thickness in
  img ≠ VNone →
  (cTime - FPS.pTime o ≠ 0)%Qc →
  FPS.update img pos color scale thickness (St o w)
  = (match drawn with
     | Return img' => Return (VTuple [VFloat fps; img'])
     | Raise _ => Return (VInt 0)
     end, St (FPS.Obj cTime) (tick w)).
Proof.
  intros cTime fps drawn Himg Hne.
  unfold FPS.update, bind, try_except, time_time, getattr, setattr, lift;
    simpl.
  rewrite truediv_nonzero by done. fold cTime fps.
  destruct img; try done; simpl; fold drawn; by destruct drawn.
Qed.

(** C2.  When the clock reading of a call equals the stored one, so that
    the measured interval is zero, [update] returns the int [0] and does not
    raise, whether or not an image was passed. *)
Theorem FPS_update_zero_interval `{Cv2} (o : FPS.t) (w : world)
    (img : value) pos color scale thickness :
  (readings w (ticks w) - FPS.pTime o = 0)%Qc →
  fst (FPS.update img pos color scale thickness (St o w)) = Return (VInt 0).
Proof.
  intros Hzero. by rewrite FPS_update_failed_division.
Qed.

Lemma FPS_update_zero_interval_witness :
  let w := stopped_clock (Qc_of_Z 5) in
  let o := FPS.Obj (Qc_of_Z 5) in
  (readings w (ticks w) - FPS.pTime o = 0)%Qc
  ∧ fst (FPS.update (H := blank_cv2) (VArray (Gray [[0; 0]; [0; 0]]))
           FPS.default_pos FPS.default_color FPS.default_scale
           FPS.default_thickness (St o w)) = Return (VInt 0)
  ∧ fst (FPS.update (H := blank_cv2) VNone
           FPS.default_pos FPS.default_color FPS.default_scale
           FPS.default_thickness (St o w)) = Return (VInt 0).
Proof.
  assert (Hzero : (Qc_of_Z 5 - Qc_of_Z 5 = 0)%Qc) by ring.
  split; [exact Hzero|].
  split; apply FPS_update_zero_interval; exact Hzero.
Defined.

(** C7.  After every call of [update] the field [pTime] holds the clock
    reading of that call.  When the division succeeds the assignment
    [self.pTime = cTime] has run; when it fails the assignment is skipped,
    but the division fails only for a zero difference, that is when [pTime]
    already is that reading. *)
Theorem FPS_update_sets_pTime `{Cv2} (o : FPS.t) (w : world)
    (img : value) pos color scale thickness :
  FPS.pTime (self (snd (FPS.update img pos color scale thickness (St o w))))
  = readings w (ticks w).
Proof.
  destruct (decide (readings w (ticks w) - FPS.pTime o = 0)%Qc) as [Hz|Hnz].
  - rewrite FPS_update_failed_division by done. simpl.
    symmetry. by apply Qc_sub_zero_eq.
  - assert (img = VNone ∨ img ≠ VNone) as [->|Himg]
      by (destruct img; auto).
    + by rewrite FPS_update_no_image.
    + by rewrite FPS_update_image.
Qed.


(** C8.  The docstring's loop, [fps, img = fpsReader.update(img)], on a clock
    that has not moved since the meter was made: the division fails and
    [update] returns the bare int [0], which is not a pair [(fps, image)]. *)
Theorem FPS_update_image_zero_interval :
  let img := VArray (Gray [[0; 0]; [0; 0]]) in
  let program : M unit value :=
    (fpsReader <- FPS.__init__ ;;
     r <- call fpsReader
            (FPS.update (H := blank_cv2) img FPS.default_pos
               FPS.default_color FPS.default_scale FPS.default_thickness) ;;
     ret (fst r)) in
  fst (program (St tt (stopped_clock (Qc_of_Z 5)))) = Return (VInt 0)
  ∧ ∀ fps img', VInt 0 ≠ VTuple [fps; img'].
Proof.
  split; [|done].
  vm_compute. reflexivity.
Qed.

(** ** Properties of [ColorFind] *)

(** C1.  With the sliders disabled and no colour given, [update] does no
    detection and returns its two initial values.  The first of them is the
    one-element tuple [([],)] of the source's [imgColor = [],], so the
    result is [(([],), [])] and not [([], [])]. *)
Theorem ColorFind_update_no_colour `{Cv2} (name : string) (img : value)
    (w : world) :
  let cf := ColorFind.Obj false name in
  ColorFind.update img VNone (St cf w)
  = (Return (VTuple [VTuple [VList []]; VList []]), St cf w)
  ∧ VTuple [VTuple [VList []]; VList []] ≠ VTuple [VList []; VList []].
Proof.
  split; [reflexivity|discriminate].
Qed.

(** ** Properties of [Timer] *)

Lemma Qc_of_Z_0 : Qc_of_Z 0 = 0%Qc.
Proof. by apply Qc_is_canon. Qed.

Lemma py_sum_empty : py_sum [] = Return (VInt 0).
Proof. reflexivity. Qed.

Lemma length_cumsum_from (acc : Qc) (xs : list Qc) :
  length (cumsum_from acc xs) = length xs.
Proof.
  revert acc. induction xs as [|x xs IH]; intros acc; simpl; [done|].
  by rewrite IH.
Qed.

Lemma lookup_cumsum_from (acc : Qc) (xs : list Qc) (i : nat) :
  (i < length xs)%nat →
  cumsum_from acc xs !! i = Some (acc + Qc_sum (take (S i) xs))%Qc.
Proof.
  revert acc i. induction xs as [|x xs IH]; intros acc i Hi; simpl in *.
  - lia.
  - destruct i as [|i]; simpl.
    + by rewrite Qcplus_0_r.
    + rewrite IH by lia. simpl. by rewrite Qcplus_assoc.
Qed.

Lemma length_np_cumsum (xs : list Qc) : length (np_cumsum xs) = length xs.
Proof. destruct xs; simpl; [done|]. by rewrite length_cumsum_from. Qed.

Lemma lookup_np_cumsum (xs : list Qc) (i : nat) :
  (i < length xs)%nat →
  np_cumsum xs !! i = Some (Qc_sum (take (S i) xs)).
Proof.
  destruct xs as [|x xs]; simpl; [lia|]. intros Hi.
  destruct i as [|i]; simpl.
  - by rewrite Qcplus_0_r.
  - by rewrite lookup_cumsum_from by lia.
Qed.

(** *** On binary64 samples *)

Lemma length_cumsum_from64 (acc : float) (xs : list float) :
  length (Binary64.cumsum_from acc xs) = length xs.
Proof.
  revert acc. induction xs as [|x xs IH]; intros acc; simpl; [done|].
  by rewrite IH.
Qed.

Lemma fold_left_snoc {A B} (f : A → B → A) (xs : list B) (x : B) (acc : A) :
  fold_left f (xs ++ [x]) acc = f (fold_left f xs acc) x.
Proof. by rewrite fold_left_app. Qed.

(** The running sums are the left folds of the prefixes. *)
Lemma lookup_running_sum (acc : float) (xs : list float) (i : nat) :
  (i ≤ length xs)%nat →
  (acc :: Binary64.cumsum_from acc xs) !! i
  = Some (fold_left PrimFloat.add (take i xs) acc).
Proof.
  revert acc i. induction xs as [|x xs IH]; intros acc i Hi.
  - simpl in Hi. by replace i with 0%nat by lia.
  - destruct i as [|i]; [done|].
    cbn [Binary64.cumsum_from lookup list_lookup take fold_left].
    apply IH. simpl in Hi. lia.
Qed.

(** C4, as the code has it.  For a timer with the samples [x0 :: rest],
    [cumsum()] has one entry for each sample; its first entry is the first
    sample and every later entry is the entry before it plus the next
    sample, in binary64; and [avg()] is [total()] divided by the number of
    samples.  Where [sum()] adds one float after the other and adding the
    first sample to its start value [0] gives the sample back (every float
    but the negative zero), the [i]-th entry is [sum(samples[0..i])] and the
    last entry is [total()]. *)
Theorem Timer64_cumsum_total_avg (how : Binary64.summation) (x0 : float)
    (rest : list float) :
  let samples := x0 :: rest in
  let n := length samples in
  let sums := Timer64.cumsum samples in
  length sums = n
  ∧ sums !! 0%nat = Some x0
  ∧ (∀ (i : nat) (a x : float),
       sums !! i = Some a → samples !! S i = Some x →
       sums !! S i = Some (a + x)%float)
  ∧ (∃ tot : float,
       Timer64.total how samples = Binary64.Float tot
       ∧ Timer64.avg how samples
         = Return (Binary64.Float (tot / Binary64.float_of_nat n)%float))
  ∧ ((0 + x0)%float = x0 →
     (∀ i : nat, (i < n)%nat →
        Binary64.Float <$> sums !! i
        = Some (Binary64.py_sum Binary64.Plain (take (S i) samples)))
     ∧ Binary64.Float <$> last sums
       = Some (Timer64.total Binary64.Plain samples)).
Proof.
  intros samples n sums.
  assert (Hsums : ∀ i, (i ≤ length rest)%nat →
            sums !! i = Some (fold_left PrimFloat.add (take i rest) x0)).
  { intros i Hi. by apply lookup_running_sum. }
  split.
  { unfold sums, Timer64.cumsum. simpl. by rewrite length_cumsum_from64. }
  split; [done|].
  split.
  { intros i a x Ha Hx. change (rest !! i = Some x) in Hx.
    pose proof (lookup_lt_Some _ _ _ Hx) as Hi.
    rewrite Hsums in Ha by lia. injection Ha as <-.
    rewrite Hsums by lia.
    by rewrite (take_S_r _ _ _ Hx), fold_left_snoc. }
  split.
  { eexists. split; reflexivity. }
  intros Hzero. split.
  - intros i Hi. unfold n in Hi. simpl in Hi. rewrite Hsums by lia.
    cbn [fmap option_fmap option_map take samples Binary64.py_sum
           Binary64.sum_floats]. by rewrite Hzero.
  - rewrite last_lookup.
    replace (pred (length sums)) with (length rest).
    2:{ unfold sums, Timer64.cumsum. simpl. by rewrite length_cumsum_from64. }
    rewrite Hsums by done. rewrite firstn_all.
    cbn [fmap option_fmap option_map Timer64.total samples Binary64.py_sum
           Binary64.sum_floats]. by rewrite Hzero.
Qed.

Lemma Timer64_cumsum_total_avg_witness :
  let x0 := 0.5%float in
  let rest := [0.25%float; 0x1.999999999999ap-4%float] in
  (0 + x0)%float = x0
  ∧ Binary64.Float <$> last (Timer64.cumsum (x0 :: rest))
    = Some (Timer64.total Binary64.Plain (x0 :: rest))
  ∧ last (Timer64.cumsum (x0 :: rest)) = Some 0x1.b333333333333p-1%float.
Proof.
  intros x0 rest.
  assert (Hzero : (0 + x0)%float = x0) by reflexivity.
  split; [exact Hzero|].
  destruct (Timer64_cumsum_total_avg Binary64.Plain x0 rest)
    as (_ & _ & _ & _ & Hplain).
  split; [exact (proj2 (Hplain Hzero))|].
  vm_compute. reflexivity.
Defined.

(** C4, as the claim has it, fails where [sum()] is compensated: for ten
    samples of a tenth of a second the last entry of [cumsum()] is the
    float below [1.0], and [total()] is [1.0]. *)
Lemma Timer64_last_cumsum_is_not_total :
  last (Timer64.cumsum ten_tenths) = Some 0x1.fffffffffffffp-1%float
  ∧ Timer64.total Binary64.Compensated ten_tenths = Binary64.Float 1%float
  ∧ Binary64.Float <$> last (Timer64.cumsum ten_tenths)
    ≠ Some (Timer64.total Binary64.Compensated ten_tenths).
Proof.
  split; [vm_compute; reflexivity|].
  split; [vm_compute; reflexivity|].
  intros Heq.
  apply (f_equal (λ r, match r with
                       | Some (Binary64.Float f) => (f =? 1)%float
                       | _ => false
                       end)) in Heq.
  vm_compute in Heq. discriminate.
Qed.

Lemma Timer_init (w : world) :
  Timer.__init__ (St tt w)
  = (Return (Timer.Obj [] (readings w (ticks w))), St tt (tick w)).
Proof. reflexivity. Qed.

(** C3, as the code has it.  On a timer without samples, as construction
    leaves it, [avg()] raises [ZeroDivisionError] and [total()] returns the
    int [0]. *)
Theorem Timer_no_samples (w : world) :
  (∃ g, Timer.__init__ (St tt w) = (Return (Timer.Obj [] g), St tt (tick w)))
  ∧ ∀ (g : Qc) (w' : world),
      let o := Timer.Obj [] g in
      Timer.avg (St o w') = (Raise ZeroDivisionError, St o w')
      ∧ Timer.total (St o w') = (Return (VInt 0), St o w').
Proof.
  split; [by eexists|]. intros g w' o.
  split; [|reflexivity].
  unfold Timer.avg, bind, getattr, lift. cbn [self o Timer.times fmap list_fmap].
  rewrite py_sum_empty. change (Z.of_nat (length [])) with 0.
  unfold py_truediv, as_float. by rewrite Qc_of_Z_0, truediv_zero.
Qed.

(** C3, as the claim has it, fails: [total()] of a timer that was just made
    returns a value. *)
Lemma Timer_total_no_samples_returns :
  let program : M unit value :=
    (timer <- Timer.__init__ ;;
     r <- call timer Timer.total ;;
     ret (fst r)) in
  ¬ (fst (program (St tt running_clock)) = Raise ZeroDivisionError)
  ∧ fst (program (St tt running_clock)) = Return (VInt 0).
Proof.
  split; [discriminate|reflexivity].
Qed.


Lemma Timer_stop_run (o : Timer.t) (w : world) :
  let sample := (readings w (ticks w) - Timer.gap o)%Qc in
  Timer.stop (St o w)
  = (Return (VFloat sample),
     St (Timer.Obj (Timer.times o ++ [sample]) (Timer.gap o)) (tick w)).
Proof.
  unfold Timer.stop, bind, time_time, getattr, setattr, lift, getitem_last;
    simpl.
  by rewrite last_snoc.
Qed.




(** ** Properties of [ColorFind.protect_region] *)

Lemma slice_bound_le (n : nat) (i : Z) : (slice_bound n i ≤ n)%nat.
Proof. unfold slice_bound. destruct (Z.ltb_spec i 0); lia. Qed.

(** A bound that is not negative is itself, clipped to the axis. *)
Lemma slice_bound_nonneg (n : nat) (i : Z) :
  0 ≤ i → slice_bound n i = (Z.to_nat i `min` n)%nat.
Proof. intros Hi. unfold slice_bound. destruct (Z.ltb_spec i 0); lia. Qed.

(** For bounds that are not negative, the slice holds the indices of the
    axis between them. *)
Lemma in_slice_nonneg (n : nat) (start stop : Z) (i : nat) :
  0 ≤ start → 0 ≤ stop → (i < n)%nat →
  in_slice n start stop i = bool_decide (start ≤ Z.of_nat i < stop).
Proof.
  intros Hstart Hstop Hi. unfold in_slice.
  rewrite !slice_bound_nonneg by done.
  apply bool_decide_ext. lia.
Qed.

(** Replacing the part of [l] that starts at [lo] by [mid]. *)
Lemma lookup_splice {A} (l mid : list A) (lo i : nat) :
  (lo ≤ length l)%nat →
  (take lo l ++ mid ++ drop (lo + length mid) l) !! i
  = if decide (i < lo)%nat then l !! i
    else if decide (i < lo + length mid)%nat then mid !! (i - lo)%nat
    else l !! i.
Proof.
  intros Hlo.
  destruct (decide (i < lo)%nat) as [Hi|Hi].
  - rewrite lookup_app_l by (rewrite length_take; lia).
    by apply lookup_take_lt.
  - rewrite lookup_app_r by (rewrite length_take; lia).
    rewrite length_take_le by done.
    destruct (decide (i < lo + length mid)%nat) as [Hm|Hm].
    + by rewrite lookup_app_l by lia.
    + rewrite lookup_app_r by lia. rewrite lookup_drop. f_equal. lia.
Qed.

Lemma length_splice {A} (l mid : list A) (lo : nat) :
  (lo + length mid ≤ length l)%nat →
  length (take lo l ++ mid ++ drop (lo + length mid) l) = length l.
Proof.
  intros Hlen. rewrite !length_app, length_take, length_drop. lia.
Qed.

Lemma length_fill_slice {A} (fill : A) (start stop : Z) (row : list A) :
  length (fill_slice fill start stop row) = length row.
Proof.
  unfold fill_slice.
  pose proof (slice_bound_le (length row) start).
  pose proof (slice_bound_le (length row) stop).
  rewrite <- (length_replicate
               (slice_bound (length row) stop - slice_bound (length row) start)
               fill) at 2.
  apply length_splice. rewrite length_replicate. lia.
Qed.

Lemma lookup_fill_slice {A} (fill : A) (start stop : Z) (row : list A)
    (c : nat) (v : A) :
  row !! c = Some v →
  fill_slice fill start stop row !! c
  = Some (if in_slice (length row) start stop c then fill else v).
Proof.
  intros Hc. unfold fill_slice, in_slice.
  pose proof (slice_bound_le (length row) start) as Hlo.
  set (lo := slice_bound (length row) start) in *.
  set (hi := slice_bound (length row) stop).
  rewrite <- (length_replicate (hi - lo) fill) at 2.
  rewrite lookup_splice by done. rewrite length_replicate.
  destruct (decide (c < lo)%nat).
  { rewrite bool_decide_eq_false_2 by lia. done. }
  destruct (decide (c < lo + (hi - lo))%nat).
  { rewrite bool_decide_eq_true_2 by lia.
    apply lookup_replicate_2. lia. }
  rewrite bool_decide_eq_false_2 by lia. done.
Qed.

Lemma length_region_rows {A} (fill : A) (x0 x1 : Z) (rows : list (list A))
    (lo hi : nat) :
  (hi ≤ length rows)%nat →
  length (fill_slice fill x0 x1 <$> take (hi - lo) (drop lo rows))
  = (hi - lo)%nat.
Proof.
  intros Hhi. rewrite length_fmap, length_take, length_drop. lia.
Qed.

Lemma length_fill_region {A} (fill : A) (y0 y1 x0 x1 : Z)
    (rows : list (list A)) :
  length (fill_region fill y0 y1 x0 x1 rows) = length rows.
Proof.
  unfold fill_region.
  pose proof (slice_bound_le (length rows) y0) as Hlo.
  pose proof (slice_bound_le (length rows) y1) as Hhi.
  set (lo := slice_bound (length rows) y0) in *.
  set (hi := slice_bound (length rows) y1) in *.
  rewrite <- (length_region_rows fill x0 x1 rows lo hi Hhi) at 2.
  apply length_splice. rewrite length_region_rows by done. lia.
Qed.

Lemma lookup_fill_region {A} (fill : A) (y0 y1 x0 x1 : Z)
    (rows : list (list A)) (r : nat) (row : list A) :
  rows !! r = Some row →
  fill_region fill y0 y1 x0 x1 rows !! r
  = Some (if in_slice (length rows) y0 y1 r then fill_slice fill x0 x1 row
          else row).
Proof.
  intros Hr. unfold fill_region, in_slice.
  pose proof (slice_bound_le (length rows) y0) as Hlo.
  pose proof (slice_bound_le (length rows) y1) as Hhi.
  set (lo := slice_bound (length rows) y0) in *.
  set (hi := slice_bound (length rows) y1) in *.
  rewrite <- (length_region_rows fill x0 x1 rows lo hi Hhi) at 2.
  rewrite lookup_splice by done. rewrite length_region_rows by done.
  destruct (decide (r < lo)%nat).
  { rewrite bool_decide_eq_false_2 by lia. done. }
  destruct (decide (r < lo + (hi - lo))%nat).
  { rewrite bool_decide_eq_true_2 by lia.
    rewrite list_lookup_fmap, lookup_take_lt by lia.
    rewrite lookup_drop. replace (lo + (r - lo))%nat with r by lia.
    by rewrite Hr. }
  rewrite bool_decide_eq_false_2 by lia. done.
Qed.

(** What [m[y0:y1, x0:x1] = fill] does to each element. *)
Lemma fill_region_spec {A} (fill : A) (y0 y1 x0 x1 : Z)
    (rows : list (list A)) (r : nat) (row : list A) :
  rows !! r = Some row →
  ∃ row', fill_region fill y0 y1 x0 x1 rows !! r = Some row'
          ∧ length row' = length row
          ∧ ∀ (c : nat) (v : A), row !! c = Some v →
              row' !! c
              = Some (if in_slice (length rows) y0 y1 r
                         && in_slice (length row) x0 x1 c
                      then fill else v).
Proof.
  intros Hr. rewrite (lookup_fill_region _ _ _ _ _ _ _ _ Hr).
  destruct (in_slice (length rows) y0 y1 r); simpl.
  - eexists; split; [done|]. split; [apply length_fill_slice|].
    intros c v Hc. by apply lookup_fill_slice.
  - by eexists.
Qed.

(** C5.  [protect_region(mask, None)] returns the mask as it is.  With a
    rectangle [[x0, x1, y0, y1]] it returns the mask with the same shape,
    in which an element is zero when its row lies in the slice [y0:y1] and
    its column in the slice [x0:x1], and is the element of [mask] at that
    place otherwise. *)
Theorem protect_region_spec (cf : ColorFind.t) (w : world)
    (mask : list (list Z)) (x0 x1 y0 y1 : Z) :
  ColorFind.protect_region (VArray (Gray mask)) None (St cf w)
  = (Return (VArray (Gray mask)), St cf w)
  ∧ ∃ mask' : list (list Z),
      ColorFind.protect_region (VArray (Gray mask)) (Some [x0; x1; y0; y1])
        (St cf w)
      = (Return (VArray (Gray mask')), St cf w)
      ∧ length mask' = length mask
      ∧ ∀ (r : nat) (row : list Z), mask !! r = Some row →
          ∃ row', mask' !! r = Some row'
                  ∧ length row' = length row
                  ∧ ∀ (c : nat) (v : Z), row !! c = Some v →
                      row' !! c
                      = Some (if in_slice (length mask) y0 y1 r
                                 && in_slice (length row) x0 x1 c
                              then 0 else v).
Proof.
  split; [reflexivity|].
  exists (fill_region 0 y0 y1 x0 x1 mask).
  split; [reflexivity|].
  split; [apply length_fill_region|].
  intros r row Hr. by apply fill_region_spec.
Qed.

Lemma protect_region_spec_witness :
  let mask := [[255; 255; 255; 255];
               [255; 255; 255; 255];
               [255; 255; 255; 255]] in
  let cf := ColorFind.Obj false "Bars" in
  ∃ mask' row',
    ColorFind.protect_region (VArray (Gray mask)) (Some [1; 3; 0; 2])
      (St cf running_clock)
    = (Return (VArray (Gray mask')), St cf running_clock)
    ∧ mask' !! 1%nat = Some row'
    ∧ row' !! 2%nat = Some 0
    ∧ row' !! 0%nat = Some 255.
Proof.
  intros mask cf.
  destruct (proj2 (protect_region_spec cf running_clock mask 1 3 0 2))
    as (mask' & Hrun & _ & Hcells).
  destruct (Hcells 1%nat [255; 255; 255; 255] eq_refl)
    as (row' & Hrow & _ & Hcell).
  exists mask', row'.
  split; [exact Hrun|]. split; [exact Hrow|].
  split; [exact (Hcell 2%nat 255 eq_refl)|exact (Hcell 0%nat 255 eq_refl)].
Defined.

(** When no bound is negative, the region is the rectangle of the rows
    [y0 <= r < y1] and the columns [x0 <= c < x1], as far as the mask
    reaches. *)
Lemma protect_region_rectangle (cf : ColorFind.t) (w : world)
    (mask : list (list Z)) (x0 x1 y0 y1 : Z) (r c : nat) (row : list Z)
    (v : Z) :
  0 ≤ x0 → 0 ≤ x1 → 0 ≤ y0 → 0 ≤ y1 →
  mask !! r = Some row → row !! c = Some v →
  ∃ mask' row',
    ColorFind.protect_region (VArray (Gray mask)) (Some [x0; x1; y0; y1])
      (St cf w)
    = (Return (VArray (Gray mask')), St cf w)
    ∧ mask' !! r = Some row'
    ∧ row' !! c
      = Some (if bool_decide (y0 ≤ Z.of_nat r < y1)
                 && bool_decide (x0 ≤ Z.of_nat c < x1)
              then 0 else v).
Proof.
  intros Hx0 Hx1 Hy0 Hy1 Hr Hc.
  destruct (fill_region_spec 0 y0 y1 x0 x1 mask r row Hr)
    as (row' & Hrow & _ & Hcell).
  exists (fill_region 0 y0 y1 x0 x1 mask), row'.
  split; [reflexivity|]. split; [exact Hrow|].
  rewrite (Hcell c v Hc).
  rewrite !in_slice_nonneg; eauto using lookup_lt_Some.
Qed.

(** The same for an image of three channels: every channel of an element
    of the region is set to zero. *)
Lemma protect_region_colour (cf : ColorFind.t) (w : world)
    (img : list (list (Z * Z * Z))) (x0 x1 y0 y1 : Z) :
  ColorFind.protect_region (VArray (Colour img)) (Some [x0; x1; y0; y1])
    (St cf w)
  = (Return (VArray (Colour (fill_region (0, 0, 0) y0 y1 x0 x1 img))),
     St cf w).
Proof. reflexivity. Qed.

(** ** Properties of [ColorFind.getColorHSV] *)

(** C6.  ["red"], ["green"] and ["blue"] are mapped to fixed pairs of HSV
    triples, and nothing is logged.  Every other name yields [None], after
    two warnings, the second of which lists the three names. *)
Theorem getColorHSV_spec (cf : ColorFind.t) (w : world) :
  let triple (h s v : Z) := VList [VInt h; VInt s; VInt v] in
  ColorFind.getColorHSV (VStr "red") (St cf w)
  = (Return (VList [triple 146 141 77; triple 179 255 255]), St cf w)
  ∧ ColorFind.getColorHSV (VStr "green") (St cf w)
    = (Return (VList [triple 44 79 111; triple 79 255 255]), St cf w)
  ∧ ColorFind.getColorHSV (VStr "blue") (St cf w)
    = (Return (VList [triple 103 68 130; triple 128 255 255]), St cf w)
  ∧ ∀ name : string,
      name ≠ "red" → name ≠ "green" → name ≠ "blue" →
      ∃ w', ColorFind.getColorHSV (VStr name) (St cf w)
            = (Return VNone, St cf w')
            ∧ warnings w'
              = warnings w ++ ["Color Not Defined";
                               "Available colors: red, green, blue "]
            ∧ (ticks w', stdout w', windows w', trackbars w')
              = (ticks w, stdout w, windows w, trackbars w).
Proof.
  intros triple. do 3 (split; [reflexivity|]).
  intros name Hred Hgreen Hblue.
  unfold ColorFind.getColorHSV, ColorFind.eq_str.
  rewrite !bool_decide_eq_false_2 by done.
  eexists. split; [reflexivity|]. simpl.
  by rewrite <- app_assoc.
Qed.

Lemma getColorHSV_spec_witness :
  let cf := ColorFind.Obj false "Bars" in
  let w := running_clock in
  ("purple" ≠ "red" ∧ "purple" ≠ "green" ∧ "purple" ≠ "blue")
  ∧ ∃ w', ColorFind.getColorHSV (VStr "purple") (St cf w)
          = (Return VNone, St cf w')
          ∧ warnings w' = ["Color Not Defined";
                           "Available colors: red, green, blue "].
Proof.
  intros cf w.
  assert (Hred : "purple" ≠ "red") by discriminate.
  assert (Hgreen : "purple" ≠ "green") by discriminate.
  assert (Hblue : "purple" ≠ "blue") by discriminate.
  split; [done|].
  destruct (proj2 (proj2 (proj2 (getColorHSV_spec cf w)))
              "purple" Hred Hgreen Hblue) as (w' & Hrun & Hwarn & _).
  exists w'. by split.
Defined.

(** ** Properties of the float formatting *)

Lemma round_half_even_nearest (n d : Z) :
  0 < d → 2 * Z.abs (n - d * round_half_even n d) ≤ d.
Proof.
  intros Hd. unfold round_half_even.
  pose proof (Z.div_mod n d ltac:(lia)) as Hdiv.
  pose proof (Z.mod_pos_bound n d Hd) as Hmod.
  destruct (Z.compare_spec (2 * (n mod d)) d) as [Heq|Hlt|Hgt].
  - destruct (Z.even (n / d)); lia.
  - lia.
  - lia.
Qed.

Lemma string_length_app (s1 s2 : string) :
  String.length (s1 +:+ s2) = (String.length s1 + String.length s2)%nat.
Proof. induction s1 as [|c s1 IH]; simpl; [done|]. by rewrite IH. Qed.

Lemma string_length_zeros (k : nat) :
  String.length (String.concat "" (replicate k "0")) = k.
Proof.
  induction k as [|k IH]; [done|].
  destruct k as [|k]; [done|].
  change (replicate (S (S k)) "0") with ("0" :: replicate (S k) "0").
  change (String.concat "" ("0" :: replicate (S k) "0"))
    with ("0" +:+ "" +:+ String.concat "" (replicate (S k) "0")).
  rewrite !string_length_app, IH. done.
Qed.

Lemma length_zfill (width : nat) (s : string) :
  (String.length s ≤ width)%nat → String.length (zfill width s) = width.
Proof.
  intros Hs. unfold zfill. rewrite string_length_app, string_length_zeros. lia.
Qed.

Lemma length_pretty_N_go (k : nat) (x : N) (s : string) :
  (x < 10 ^ N.of_nat k)%N →
  (String.length (pretty_N_go x s) ≤ String.length s + k)%nat.
Proof.
  revert x s. induction k as [|k IH]; intros x s Hx.
  - assert (x = 0%N) as -> by (simpl in Hx; lia).
    rewrite pretty_N_go_0. lia.
  - destruct (decide (x = 0)%N) as [->|Hne].
    { rewrite pretty_N_go_0. lia. }
    rewrite pretty_N_go_step by lia.
    etrans; [apply IH|simpl; lia].
    rewrite Nat2N.inj_succ, N.pow_succ_r' in Hx.
    apply N.Div0.div_lt_upper_bound. lia.
Qed.

Lemma length_pretty_Z (k : nat) (m : Z) :
  (1 ≤ k)%nat → 0 ≤ m < 10 ^ Z.of_nat k →
  (String.length (pretty m) ≤ k)%nat.
Proof.
  intros Hk [Hm0 Hm]. destruct m as [|p|p]; [done| |lia].
  change (pretty (Z.pos p)) with (pretty_N_go (N.pos p) "").
  apply (length_pretty_N_go k (N.pos p) "").
  apply N2Z.inj_lt. rewrite N2Z.inj_pow, nat_N_Z. simpl. lia.
Qed.

(** [format_f 7 x] is a sign, the decimal digits of the whole part, a point
    and seven more digits, where whole part and digits are those of the
    integer nearest to [|x| * 10^7]. *)
Lemma format_f_7_shape (x : Qc) :
  ∃ (n : Z) (digits : string),
    format_f 7 x
    = (if decide (Qnum x < 0) then "-" else "")
        +:+ pretty (n / 10 ^ 7) +:+ "." +:+ digits
    ∧ digits = zfill 7 (pretty (n mod 10 ^ 7))
    ∧ String.length digits = 7%nat
    ∧ 0 ≤ n
    ∧ 2 * Z.abs (Z.abs (Qnum x) * 10 ^ 7 - Zpos (Qden x) * n) ≤ Zpos (Qden x).
Proof.
  set (n := round_half_even (Z.abs (Qnum x) * 10 ^ 7) (Zpos (Qden x))).
  pose proof (round_half_even_nearest (Z.abs (Qnum x) * 10 ^ 7)
                (Zpos (Qden x)) ltac:(lia)) as Hnear.
  fold n in Hnear.
  exists n, (zfill 7 (pretty (n mod 10 ^ 7))).
  split; [reflexivity|]. split; [reflexivity|].
  split.
  { apply length_zfill, length_pretty_Z; [lia|].
    apply Z.mod_pos_bound. lia. }
  split; [|done].
  assert (0 ≤ Z.abs (Qnum x) * 10 ^ 7) by lia. nia.
Qed.

(** ** Properties of [Runcodes] *)

Lemma Runcodes_exit_run (label : string) (tm : Timer.t) (args : list value)
    (w : world) :
  let elapsed := (readings w (ticks w) - Timer.gap tm)%Qc in
  Runcodes.__exit__ args (St (Runcodes.Obj label (Some tm)) w)
  = (Return VNone,
     St (Runcodes.Obj label
           (Some (Timer.Obj (Timer.times tm ++ [elapsed]) (Timer.gap tm))))
        (emit (label +:+ ": " +:+ format_f 7 elapsed +:+ " sec") (tick w))).
Proof.
  intros elapsed.
  unfold Runcodes.__exit__, bind, getattr, call. cbn [self env Runcodes.timer].
  rewrite Timer_stop_run. reflexivity.
Qed.

(** C9.  [with Runcodes(description): body] runs [__exit__] when the body
    is left, whether it returned or raised: the timer is stopped (one more
    clock reading) and one line is printed, the description (["Done"] when
    none was given), [": "], the time between entry and exit with seven
    decimals, and [" sec"].  The outcome of the statement is the body's. *)
Theorem Runcodes_with_reports {A : Type} (description : option string)
    (body : M unit A) (w : world) :
  let label := default "Done" description in
  let entered := readings w (ticks w) in
  let after_body := body (St tt (tick w)) in
  let w1 := env (snd after_body) in
  let elapsed := (readings w1 (ticks w1) - entered)%Qc in
  Runcodes.with_ description body (St tt w)
  = (fst after_body,
     St tt (emit (label +:+ ": " +:+ format_f 7 elapsed +:+ " sec")
              (tick w1)))
  ∧ ∃ sign whole digits : string,
      format_f 7 elapsed = sign +:+ whole +:+ "." +:+ digits
      ∧ String.length digits = 7%nat.
Proof.
  intros label entered after_body w1 elapsed. split.
  - unfold Runcodes.with_, Runcodes.__init__, Runcodes.__enter__, bind, ret,
      call, setattr, try_finally.
    cbn [self env fst snd]. rewrite Timer_init. cbn [self env fst snd].
    fold label after_body.
    destruct after_body as [r [[] w1']] eqn:Hbody. subst w1.
    cbn [self env snd].
    rewrite Runcodes_exit_run. reflexivity.
  - destruct (format_f_7_shape elapsed) as (n & digits & Hfmt & _ & Hlen & _).
    eauto.
Qed.

(** ** Examples *)

Example format_f_tie_to_even :
  format_f 7 (Q2Qc (1 # 256)) = "0.0039062"
  ∧ format_f 7 (Q2Qc (3 # 256)) = "0.0117188".
Proof. split; vm_compute; reflexivity. Qed.

Example format_f_keeps_sign :
  format_f 7 (Q2Qc (-1 # 1000000000)) = "-0.0000000"
  ∧ format_f 7 (Q2Qc (-7 # 2)) = "-3.5000000".
Proof. split; vm_compute; reflexivity. Qed.

Example Runcodes_default_label :
  let body : M unit unit := print "working" in
  let result := Runcodes.with_ None body (St tt running_clock) in
  fst result = Return tt
  ∧ stdout (env (snd result)) = ["working"; "Done: 1.0000000 sec"].
Proof. split; vm_compute; reflexivity. Qed.

Example Runcodes_body_raises :
  let body : M unit unit := (print "working" ;;; raise ValueError) in
  let result :=
    Runcodes.with_ (Some "inference time") body (St tt running_clock) in
  fst result = Raise ValueError
  ∧ stdout (env (snd result))
    = ["working"; "inference time: 1.0000000 sec"].
Proof. split; vm_compute; reflexivity. Qed.

Example protect_region_inner_rectangle :
  let mask := [[255; 255; 255; 255];
               [255; 255; 255; 255];
               [255; 255; 255; 255]] in
  fst (ColorFind.protect_region (VArray (Gray mask)) (Some [1; 3; 0; 2])
         (St (ColorFind.Obj false "Bars") running_clock))
  = Return (VArray (Gray [[255; 0; 0; 255];
                          [255; 0; 0; 255];
                          [255; 255; 255; 255]])).
Proof. reflexivity. Qed.

Example protect_region_negative_and_large_bounds :
  let mask := [[255; 255; 255; 255];
               [255; 255; 255; 255];
               [255; 255; 255; 255]] in
  fst (ColorFind.protect_region (VArray (Gray mask)) (Some [-1; 9; -2; 9])
         (St (ColorFind.Obj false "Bars") running_clock))
  = Return (VArray (Gray [[255; 255; 255; 255];
                          [255; 255; 255; 0];
                          [255; 255; 255; 0]])).
Proof. reflexivity. Qed.

Example protect_region_short_list :
  fst (ColorFind.protect_region (VArray (Gray [[255]])) (Some [0; 1; 0])
         (St (ColorFind.Obj false "Bars") running_clock))
  = Raise ValueError.
Proof. reflexivity. Qed.

Example ColorFind_update_unknown_name :
  let result :=
    ColorFind.update (H := blank_cv2) (VArray (Colour [[(0, 0, 255)]]))
      (VStr "purple") (St (ColorFind.Obj false "Bars") running_clock) in
  fst result = Return (VTuple [VTuple [VList []]; VList []])
  ∧ warnings (env (snd result))
    = ["Color Not Defined"; "Available colors: red, green, blue "].
Proof. split; vm_compute; reflexivity. Qed.

(** ** Further properties of [FPS] *)

(** Every way [update] can end, with the state it leaves. *)
Lemma FPS_update_outcomes `{Cv2} (o : FPS.t) (w : world) (img : value)
    pos color scale thickness :
  let cTime := readings w (ticks w) in
  let fps := (1 / (cTime - FPS.pTime o))%Qc in
  ∃ v : value,
    FPS.update img pos color scale thickness (St o w)
    = (Return v, St (FPS.Obj cTime) (tick w))
    ∧ (v = VInt 0 ∨ v = VFloat fps ∨ ∃ img', v = VTuple [VFloat fps; img']).
Proof.
  intros cTime fps.
  destruct (decide (cTime - FPS.pTime o = 0)%Qc) as [Hz|Hnz].
  - exists (VInt 0). rewrite FPS_update_failed_division by done.
    split; [|by left].
    apply Qc_sub_zero_eq in Hz. destruct o as [p]. simpl in Hz.
    by rewrite Hz.
  - assert (img = VNone ∨ img ≠ VNone) as [->|Himg] by (destruct img; auto).
    + exists (VFloat fps). rewrite FPS_update_no_image by done. auto.
    + rewrite FPS_update_image by done. fold cTime fps.
      destruct (putText _ _ _ _ _ _ _) as [img'|e]; eauto 6.
Qed.

(** X1.  [update] never raises: whatever the image is and whatever
    [cv2.putText] does with it, the call returns [0], the rate, or the pair
    of the rate and an image. *)
Theorem FPS_update_never_raises `{Cv2} (o : FPS.t) (w : world) (img : value)
    pos color scale thickness :
  let fps := (1 / (readings w (ticks w) - FPS.pTime o))%Qc in
  ∃ v : value,
    fst (FPS.update img pos color scale thickness (St o w)) = Return v
    ∧ (v = VInt 0 ∨ v = VFloat fps ∨ ∃ img', v = VTuple [VFloat fps; img']).
Proof.
  intros fps.
  destruct (FPS_update_outcomes o w img pos color scale thickness)
    as (v & Hrun & Hv).
  exists v. by rewrite Hrun.
Qed.

(** X2.  No history is kept: the rate a call returns is the inverse of the
    time since the call before it, whatever the meter held earlier and
    however the call before it ended. *)
Theorem FPS_update_no_history `{Cv2} (o : FPS.t) (w : world) (img : value)
    pos color scale thickness pos' color' scale' thickness' :
  let t1 := readings w (ticks w) in
  let t2 := readings w (S (ticks w)) in
  let twice : M FPS.t value :=
    (FPS.update img pos color scale thickness ;;;
     FPS.update VNone pos' color' scale' thickness') in
  t2 ≠ t1 →
  fst (twice (St o w)) = Return (VFloat (1 / (t2 - t1))%Qc).
Proof.
  intros t1 t2 twice Hne. unfold twice, bind.
  destruct (FPS_update_outcomes o w img pos color scale thickness)
    as (v & -> & _).
  rewrite FPS_update_no_image; [done|].
  simpl. intros Hz. by apply Qc_sub_zero_eq in Hz.
Qed.

Lemma FPS_update_no_history_witness :
  let o := FPS.Obj (Qc_of_Z 7) in
  let w := running_clock in
  readings w (S (ticks w)) ≠ readings w (ticks w)
  ∧ fst ((FPS.update (H := blank_cv2) (VArray (Gray [[0]])) FPS.default_pos
            FPS.default_color FPS.default_scale FPS.default_thickness ;;;
          FPS.update (H := blank_cv2) VNone FPS.default_pos
            FPS.default_color FPS.default_scale FPS.default_thickness)
           (St o w))
    = Return (VFloat (1 / (readings w (S (ticks w)) - readings w (ticks w)))%Qc).
Proof.
  intros o w.
  assert (Hne : readings w (S (ticks w)) ≠ readings w (ticks w))
    by discriminate.
  split; [exact Hne|].
  exact (FPS_update_no_history (H := blank_cv2) o w (VArray (Gray [[0]]))
           FPS.default_pos FPS.default_color FPS.default_scale
           FPS.default_thickness FPS.default_pos FPS.default_color
           FPS.default_scale FPS.default_thickness Hne).
Defined.

(** ** Further properties of [Timer] *)

Lemma Timer_start_run (o : Timer.t) (w : world) :
  Timer.start (St o w)
  = (Return tt, St (Timer.Obj (Timer.times o) (readings w (ticks w))) (tick w)).
Proof. reflexivity. Qed.

Lemma nondecreasing_tick (w : world) : nondecreasing w → nondecreasing (tick w).
Proof. intros Hw i j Hij. by apply Hw. Qed.

Lemma Qc_minus_nonneg (a b : Qc) : (b ≤ a → 0 ≤ a - b)%Qc.
Proof. intros Hba. by apply Qcle_minus_iff in Hba. Qed.

(** What a sequence of calls leaves: the samples there were and one more for
    each [stop()], one clock reading made for each call, and, on a clock
    that never runs backwards, no negative sample among the new ones. *)
Lemma Timer_calls_run (calls : list Timer_call) (o : Timer.t) (w : world) :
  ∃ (new : list Qc) (g : Qc),
    Timer_calls calls (St o w)
    = (Return tt,
       St (Timer.Obj (Timer.times o ++ new) g)
          (Nat.iter (length calls) tick w))
    ∧ length new = stops calls
    ∧ (nondecreasing w → (Timer.gap o ≤ readings w (ticks w))%Qc →
       Forall (λ x, 0 ≤ x)%Qc new).
Proof.
  revert o w. induction calls as [|c calls IH]; intros o w.
  - exists [], (Timer.gap o). simpl. rewrite app_nil_r.
    destruct o; simpl. by split.
  - destruct c; cbn [Timer_calls].
    + unfold bind at 1. rewrite Timer_start_run.
      destruct (IH (Timer.Obj (Timer.times o) (readings w (ticks w))) (tick w))
        as (new & g & Hrun & Hlen & Hpos).
      exists new, g. cbn [Timer.times Timer.gap] in *.
      rewrite Hrun. cbn [length]. rewrite Nat.iter_succ_r.
      split; [done|]. split; [done|].
      intros Hw _. apply Hpos; [by apply nondecreasing_tick|].
      apply (Hw (ticks w) (S (ticks w))), Nat.le_succ_diag_r.
    + unfold bind at 1. rewrite Timer_stop_run.
      set (sample := (readings w (ticks w) - Timer.gap o)%Qc).
      destruct (IH (Timer.Obj (Timer.times o ++ [sample]) (Timer.gap o))
                  (tick w)) as (new & g & Hrun & Hlen & Hpos).
      exists (sample :: new), g. cbn [Timer.times Timer.gap] in *.
      rewrite Hrun, <- app_assoc. cbn [length stops]. rewrite Nat.iter_succ_r.
      split; [done|]. split; [by rewrite Hlen|].
      intros Hw Hgap. constructor; [by apply Qc_minus_nonneg|].
      apply Hpos; [by apply nondecreasing_tick|].
      etrans; [exact Hgap|]. apply (Hw (ticks w) (S (ticks w))), Nat.le_succ_diag_r.
Qed.

(** X4.  The samples are append-only.  Whatever [start()] and [stop()]
    calls are made, in whatever order, none raises, the samples the timer
    held stay as they were, and exactly one sample is added for each
    [stop()]. *)
Theorem Timer_calls_append_only (calls : list Timer_call) (o : Timer.t)
    (w : world) :
  ∃ (o' : Timer.t) (new : list Qc),
    Timer_calls calls (St o w)
    = (Return tt, St o' (Nat.iter (length calls) tick w))
    ∧ Timer.times o' = Timer.times o ++ new
    ∧ length new = stops calls.
Proof.
  destruct (Timer_calls_run calls o w) as (new & g & Hrun & Hlen & _).
  by exists (Timer.Obj (Timer.times o ++ new) g), new.
Qed.

(** X5.  On a clock that never runs backwards, a timer made by [Timer()]
    holds no negative sample, whatever calls of [start()] and [stop()]
    follow its construction. *)
Theorem Timer_samples_nonneg (calls : list Timer_call) (w : world) :
  let program : M unit Timer.t :=
    (timer <- Timer.__init__ ;;
     r <- call timer (Timer_calls calls) ;;
     ret (snd r)) in
  nondecreasing w →
  ∃ timer' : Timer.t,
    fst (program (St tt w)) = Return timer'
    ∧ length (Timer.times timer') = stops calls
    ∧ Forall (λ x, 0 ≤ x)%Qc (Timer.times timer').
Proof.
  intros program Hw. unfold program, bind at 1. rewrite Timer_init.
  unfold bind, call. cbn [self env].
  destruct (Timer_calls_run calls (Timer.Obj [] (readings w (ticks w)))
              (tick w)) as (new & g & Hrun & Hlen & Hpos).
  rewrite Hrun. cbn. eexists. split; [reflexivity|].
  cbn. split; [done|].
  apply Hpos; [by apply nondecreasing_tick|].
  apply (Hw (ticks w) (S (ticks w))), Nat.le_succ_diag_r.
Qed.

Lemma running_clock_nondecreasing : nondecreasing running_clock.
Proof.
  intros i j Hij. simpl. apply (proj1 (Z2Qc_inj_le _ _)). lia.
Qed.

Lemma Timer_samples_nonneg_witness :
  let calls := [CallStop; CallStart; CallStop; CallStop] in
  nondecreasing running_clock
  ∧ ∃ timer' : Timer.t,
      fst ((timer <- Timer.__init__ ;;
            r <- call timer (Timer_calls calls) ;;
            ret (snd r)) (St tt running_clock)) = Return timer'
      ∧ length (Timer.times timer') = 3%nat
      ∧ Forall (λ x, 0 ≤ x)%Qc (Timer.times timer').
Proof.
  intros calls. split; [exact running_clock_nondecreasing|].
  exact (Timer_samples_nonneg calls running_clock running_clock_nondecreasing).
Defined.

Lemma Qc_sum_app (xs ys : list Qc) :
  Qc_sum (xs ++ ys) = (Qc_sum xs + Qc_sum ys)%Qc.
Proof.
  induction xs as [|x xs IH]; simpl.
  - by rewrite Qcplus_0_l.
  - by rewrite IH, Qcplus_assoc.
Qed.

Lemma Qc_sum_nonneg (xs : list Qc) :
  Forall (λ x, 0 ≤ x)%Qc xs → (0 ≤ Qc_sum xs)%Qc.
Proof.
  induction 1 as [|x xs Hx _ IH]; simpl; [done|].
  rewrite <- (Qcplus_0_l 0). by apply Qcplus_le_compat.
Qed.

Lemma Qc_sum_take_le (xs : list Qc) (i j : nat) :
  Forall (λ x, 0 ≤ x)%Qc xs → (i ≤ j)%nat →
  (Qc_sum (take i xs) ≤ Qc_sum (take j xs))%Qc.
Proof.
  intros Hxs Hij.
  replace j with (i + (j - i))%nat by lia.
  rewrite <- take_take_drop, Qc_sum_app.
  rewrite <- (Qcplus_0_r (Qc_sum (take i xs))) at 1.
  apply Qcplus_le_compat; [done|].
  apply Qc_sum_nonneg. by apply Forall_take, Forall_drop.
Qed.

(** X6.  When no sample is negative, [cumsum()] is a list that never
    decreases, and none of its entries is negative. *)
Theorem Timer_cumsum_nondecreasing (o : Timer.t) (w : world) :
  Forall (λ x, 0 ≤ x)%Qc (Timer.times o) →
  ∃ sums : list Qc,
    Timer.cumsum (St o w) = (Return (VList (VFloat <$> sums)), St o w)
    ∧ (∀ (i j : nat) (x y : Qc),
         (i ≤ j)%nat → sums !! i = Some x → sums !! j = Some y → (x ≤ y)%Qc)
    ∧ Forall (λ x, 0 ≤ x)%Qc sums.
Proof.
  intros Hpos. exists (np_cumsum (Timer.times o)).
  split; [reflexivity|].
  assert (Hlookup : ∀ i x, np_cumsum (Timer.times o) !! i = Some x →
                           x = Qc_sum (take (S i) (Timer.times o))).
  { intros i x Hi.
    assert (i < length (Timer.times o))%nat as Hlt.
    { rewrite <- length_np_cumsum. by eapply lookup_lt_Some. }
    rewrite lookup_np_cumsum in Hi by done. congruence. }
  split.
  - intros i j x y Hij Hx Hy.
    rewrite (Hlookup _ _ Hx), (Hlookup _ _ Hy).
    apply Qc_sum_take_le; [done|lia].
  - apply Forall_lookup. intros i x Hx. rewrite (Hlookup _ _ Hx).
    apply Qc_sum_nonneg. by apply Forall_take.
Qed.

Lemma Timer_cumsum_nondecreasing_witness :
  let o := Timer.Obj [Q2Qc (1 # 2); 0%Qc; Q2Qc (1 # 3)] 0%Qc in
  Forall (λ x, 0 ≤ x)%Qc (Timer.times o)
  ∧ ∃ sums : list Qc,
      Timer.cumsum (St o running_clock)
      = (Return (VList (VFloat <$> sums)), St o running_clock)
      ∧ Forall (λ x, 0 ≤ x)%Qc sums.
Proof.
  intros o.
  assert (Hpos : Forall (λ x, 0 ≤ x)%Qc (Timer.times o)).
  { repeat constructor; discriminate. }
  split; [exact Hpos|].
  destruct (Timer_cumsum_nondecreasing o running_clock Hpos)
    as (sums & Hrun & _ & Hsums).
  exists sums. by split.
Defined.

(** ** Further properties of [Runcodes] *)

Lemma Runcodes_with_run {A : Type} (description : option string)
    (body : M unit A) (w : world) :
  let label := default "Done" description in
  let after_body := body (St tt (tick w)) in
  let w1 := env (snd after_body) in
  let elapsed := (readings w1 (ticks w1) - readings w (ticks w))%Qc in
  Runcodes.with_ description body (St tt w)
  = (fst after_body,
     St tt (emit (label +:+ ": " +:+ format_f 7 elapsed +:+ " sec")
              (tick w1))).
Proof.
  intros label after_body w1 elapsed.
  unfold Runcodes.with_, Runcodes.__init__, Runcodes.__enter__, bind, ret,
    call, setattr, try_finally.
  cbn [self env fst snd]. rewrite Timer_init. cbn [self env fst snd].
  fold label after_body.
  destruct after_body as [r [[] w1']] eqn:Hbody. subst w1.
  cbn [self env snd].
  rewrite Runcodes_exit_run. reflexivity.
Qed.

(** X8.  Scopes nest like brackets.  For [with Runcodes(outer):] around
    [with Runcodes(inner): body], the inner report is printed first and the
    outer one after it, whether the body returned or raised; the inner time
    runs from the second clock reading to the first one after the body, the
    outer time from the first reading to the second one after the body.  If
    the clock did not run backwards between the two entries and between the
    two exits, the outer time is at least the inner time. *)
Theorem Runcodes_nested {A : Type} (outer inner : option string)
    (body : M unit A) (w : world) :
  let after_body := body (St tt (tick (tick w))) in
  let w1 := env (snd after_body) in
  let inner_time :=
    (readings w1 (ticks w1) - readings w (S (ticks w)))%Qc in
  let outer_time :=
    (readings w1 (S (ticks w1)) - readings w (ticks w))%Qc in
  let inner_line :=
    default "Done" inner +:+ ": " +:+ format_f 7 inner_time +:+ " sec" in
  let outer_line :=
    default "Done" outer +:+ ": " +:+ format_f 7 outer_time +:+ " sec" in
  let result :=
    Runcodes.with_ outer (Runcodes.with_ inner body) (St tt w) in
  fst result = fst after_body
  ∧ stdout (env (snd result)) = stdout w1 ++ [inner_line; outer_line]
  ∧ ticks (env (snd result)) = S (S (ticks w1))
  ∧ ((readings w (ticks w) ≤ readings w (S (ticks w)))%Qc →
     (readings w1 (ticks w1) ≤ readings w1 (S (ticks w1)))%Qc →
     (inner_time ≤ outer_time)%Qc).
Proof.
  intros after_body w1 inner_time outer_time inner_line outer_line result.
  unfold result. rewrite Runcodes_with_run.
  rewrite (Runcodes_with_run inner body (tick w)).
  cbn [fst snd env]. fold after_body. fold w1.
  split; [done|].
  split; [simpl; by rewrite <- app_assoc|].
  split; [done|].
  intros Hentry Hexit. unfold inner_time, outer_time, Qcminus.
  apply Qcplus_le_compat; [done|]. by apply Qcopp_le_compat.
Qed.

Lemma Runcodes_nested_witness :
  let body : M unit unit := print "working" in
  let w := running_clock in
  let w1 := env (snd (body (St tt (tick (tick w))))) in
  ((readings w (ticks w) ≤ readings w (S (ticks w)))%Qc
   ∧ (readings w1 (ticks w1) ≤ readings w1 (S (ticks w1)))%Qc)
  ∧ (readings w1 (ticks w1) - readings w (S (ticks w))
     ≤ readings w1 (S (ticks w1)) - readings w (ticks w))%Qc
  ∧ stdout (env (snd (Runcodes.with_ (Some "outer")
                        (Runcodes.with_ (Some "inner") body) (St tt w))))
    = ["working"; "inner: 1.0000000 sec"; "outer: 3.0000000 sec"].
Proof.
  intros body w w1.
  assert (Hentry : (readings w (ticks w) ≤ readings w (S (ticks w)))%Qc)
    by discriminate.
  assert (Hexit : (readings w1 (ticks w1) ≤ readings w1 (S (ticks w1)))%Qc)
    by discriminate.
  split; [by split|].
  destruct (Runcodes_nested (Some "outer") (Some "inner") body w)
    as (_ & Hout & _ & Hle).
  split; [exact (Hle Hentry Hexit)|].
  rewrite Hout. vm_compute. reflexivity.
Defined.

(** ** Properties of [timing] *)


(** How a decorated function runs. *)
Lemma timing_run (decimal : Z) (f : Timing.callable) (args : list value)
    (kwargs : list (string * value)) (c : Timing.perf) (w : world) :
  let name := Timing.__name__ f in
  let start := Timing.perf_readings c (Timing.perf_ticks c) in
  let entered :=
    St (Timing.Perf (S (Timing.perf_ticks c)) (Timing.perf_readings c))
       (emit name w) in
  let called := Timing.__call__ f args kwargs entered in
  let c2 := self (snd called) in
  let end_ := Timing.perf_readings c2 (Timing.perf_ticks c2) in
  let c3 := Timing.Perf (S (Timing.perf_ticks c2)) (Timing.perf_readings c2) in
  Timing.__call__ (Timing.timing decimal f) args kwargs (St c w)
  = match fst called with
    | Raise e => (Raise e, snd called)
    | Return res =>
        if decide (decimal < 0 ∨ Timing.INT_MAX < decimal)
        then (Raise ValueError, St c3 (env (snd called)))
        else (Return res,
              St c3 (emit (name +:+ " delta time (s) = "
                             +:+ format_f (Z.to_nat decimal) (end_ - start))
                       (env (snd called))))
    end.
Proof.
  intros name start entered called c2 end_ c3.
  unfold Timing.timing, Timing.__call__ at 1, bind, Timing.print_args, print,
    Timing.perf_counter, lift, ret, Timing.format_float.
  cbn [self env String.concat]. fold name entered called.
  destruct called as [[res|e] s2]; [|done].
  cbn [fst snd self env]. subst c2 c3 end_. cbn [snd self].
  destruct (decide (decimal < 0)).
  { by rewrite decide_True by auto. }
  destruct (decide (Timing.INT_MAX < decimal)).
  { by rewrite decide_True by auto. }
  by rewrite decide_False by (intros []; done).
Qed.


(** X10.  When the function raises, so does the decorated function, with
    the same exception and in the state the function left: the name was
    printed before the call, but the performance counter is not read again
    and no time is printed. *)
Theorem timing_exception (decimal : Z) (f : Timing.callable)
    (args : list value) (kwargs : list (string * value)) (c : Timing.perf)
    (w : world) (e : exn) :
  let called :=
    Timing.__call__ f args kwargs
      (St (Timing.Perf (S (Timing.perf_ticks c)) (Timing.perf_readings c))
          (emit (Timing.__name__ f) w)) in
  fst called = Raise e →
  Timing.__call__ (Timing.timing decimal f) args kwargs (St c w)
  = (Raise e, snd called).
Proof.
  intros called Hraise. rewrite timing_run. fold called. by rewrite Hraise.
Qed.

(** X11.  A negative [decimal] is found out only after the call: the
    function runs, with its effects, and then [ValueError] is raised where
    its result would have been returned; no time is printed. *)
Theorem timing_negative_decimal (decimal : Z) (f : Timing.callable)
    (args : list value) (kwargs : list (string * value)) (c : Timing.perf)
    (w : world) (res : value) :
  let called :=
    Timing.__call__ f args kwargs
      (St (Timing.Perf (S (Timing.perf_ticks c)) (Timing.perf_readings c))
          (emit (Timing.__name__ f) w)) in
  let result := Timing.__call__ (Timing.timing decimal f) args kwargs (St c w) in
  decimal < 0 →
  fst called = Return res →
  fst result = Raise ValueError
  ∧ env (snd result) = env (snd called).
Proof.
  intros called result Hdec Hres.
  unfold result. rewrite timing_run. fold called. rewrite Hres.
  by rewrite decide_True by auto.
Qed.


Lemma timing_exception_witness :
  fst (Timing.__call__ failing_function [] []
         (St (Timing.Perf 1 (Timing.perf_readings running_perf))
             (emit "failing_function" running_clock))) = Raise TypeError
  ∧ Timing.__call__ (Timing.timing 5 failing_function) [] []
      (St running_perf running_clock)
    = (Raise TypeError,
       St (Timing.Perf 1 (Timing.perf_readings running_perf))
          (emit "failing_function" running_clock)).
Proof.
  assert (Hraise : fst (Timing.__call__ failing_function [] []
                          (St (Timing.Perf 1
                                 (Timing.perf_readings running_perf))
                              (emit "failing_function" running_clock)))
                   = Raise TypeError) by reflexivity.
  split; [exact Hraise|].
  exact (timing_exception 5 failing_function [] [] running_perf running_clock
           TypeError Hraise).
Defined.

Lemma timing_negative_decimal_witness :
  let result :=
    Timing.__call__ (Timing.timing (-1) test_function) [] []
      (St running_perf running_clock) in
  (-1 < 0
   ∧ fst (Timing.__call__ test_function [] []
            (St (Timing.Perf 1 (Timing.perf_readings running_perf))
                (emit "test_function" running_clock))) = Return VNone)
  ∧ fst result = Raise ValueError
  ∧ stdout (env (snd result)) = ["test_function"].
Proof.
  intros result.
  assert (Hdec : -1 < 0) by lia.
  assert (Hres : fst (Timing.__call__ test_function [] []
                        (St (Timing.Perf 1 (Timing.perf_readings running_perf))
                            (emit "test_function" running_clock)))
                 = Return VNone) by reflexivity.
  split; [by split|].
  destruct (timing_negative_decimal (-1) test_function [] [] running_perf
              running_clock VNone Hdec Hres) as [Hraise Henv].
  split; [exact Hraise|]. unfold result. rewrite Henv. reflexivity.
Defined.



(** ** Further properties of [ColorFind.update] *)

(** [MaskZone] changes neither the detector nor the world, and what it
    returns is a pair. *)
Lemma MaskZone_run `{Cv2} (cf : ColorFind.t) (w : world) (img HsvVals : value) :
  (∃ imgResult mask,
     ColorFind.MaskZone img HsvVals (St cf w)
     = (Return (VTuple [imgResult; mask]), St cf w))
  ∨ (∃ e, ColorFind.MaskZone img HsvVals (St cf w) = (Raise e, St cf w)).
Proof.
  unfold ColorFind.MaskZone, bind, lift, ret.
  destruct (cvtColor img COLOR_BGR2HSV) as [imgHSV|e]; [|eauto].
  destruct (getitem HsvVals 0) as [lo|e]; [|eauto].
  destruct (getitem HsvVals 1) as [hi|e]; [|eauto].
  destruct (inRange imgHSV (np_array lo) (np_array hi)) as [mask|e]; [|eauto].
  destruct (bitwise_and img img mask) as [imgResult|e]; eauto.
Qed.

(** With the sliders disabled, a colour that is neither a string nor [None]
    goes to [MaskZone] as it is. *)
Lemma ColorFind_update_bounds_run `{Cv2} (name : string) (w : world)
    (img myColor : value) :
  let cf := ColorFind.Obj false name in
  ColorFind.isinstance_str myColor = false →
  myColor ≠ VNone →
  ColorFind.update img myColor (St cf w)
  = ColorFind.MaskZone img myColor (St cf w).
Proof.
  intros cf Hstr Hnone.
  unfold ColorFind.update, bind at 1, getattr. cbn [self ColorFind.trackBar cf].
  unfold bind at 1, ret at 1. rewrite Hstr.
  unfold bind at 1, ret at 1.
  assert (Hrun : (both <- ColorFind.MaskZone img myColor ;;
                  pair <- lift (unpack2 both) ;;
                  ret (VTuple [pair.1; pair.2])) (St cf w)
                 = ColorFind.MaskZone img myColor (St cf w)).
  { unfold bind at 1.
    destruct (MaskZone_run cf w img myColor)
      as [(imgResult & mask & ->)|(e & ->)]; reflexivity. }
  destruct myColor; try done.
Qed.

(** X13.  With the sliders disabled, [update] with a list of bounds is
    [MaskZone] with these bounds: the same result or the same exception, and
    no other effect. *)
Theorem ColorFind_update_explicit_bounds `{Cv2} (name : string) (w : world)
    (img : value) (bounds : list value) :
  let cf := ColorFind.Obj false name in
  ColorFind.update img (VList bounds) (St cf w)
  = ColorFind.MaskZone img (VList bounds) (St cf w)
  ∧ snd (ColorFind.update img (VList bounds) (St cf w)) = St cf w.
Proof.
  intros cf. subst cf.
  rewrite ColorFind_update_bounds_run by done.
  split; [done|].
  destruct (MaskZone_run (ColorFind.Obj false name) w img (VList bounds))
    as [(imgResult & mask & ->)|(e & ->)]; reflexivity.
Qed.

Lemma ColorFind_update_name_run `{Cv2} (name : string) (w : world)
    (img : value) (colour : string) (bounds : value) (w' : world) :
  let cf := ColorFind.Obj false name in
  ColorFind.getColorHSV (VStr colour) (St cf w) = (Return bounds, St cf w') →
  ColorFind.update img (VStr colour) (St cf w)
  = match bounds with
    | VNone => (Return (VTuple [VTuple [VList []]; VList []]), St cf w')
    | _ => (both <- ColorFind.MaskZone img bounds ;;
            pair <- lift (unpack2 both) ;;
            ret (VTuple [pair.1; pair.2])) (St cf w')
    end.
Proof.
  intros cf Hname.
  unfold ColorFind.update, bind at 1, getattr. cbn [self ColorFind.trackBar cf].
  unfold bind at 1, ret at 1. cbn [ColorFind.isinstance_str].
  unfold bind at 1. fold cf. rewrite Hname.
  by destruct bounds.
Qed.

(** X14.  With the sliders disabled, the name of a preset stands for its
    bounds: [update(img, "red")] is [update] with the pair of triples that
    [getColorHSV("red")] returns, and so for ["green"] and ["blue"]. *)
Theorem ColorFind_update_preset `{Cv2} (name : string) (w : world)
    (img : value) :
  let cf := ColorFind.Obj false name in
  let triple (h s v : Z) := VList [VInt h; VInt s; VInt v] in
  let on (bounds : value) := ColorFind.update img bounds (St cf w) in
  on (VStr "red") = on (VList [triple 146 141 77; triple 179 255 255])
  ∧ on (VStr "green") = on (VList [triple 44 79 111; triple 79 255 255])
  ∧ on (VStr "blue") = on (VList [triple 103 68 130; triple 128 255 255]).
Proof.
  intros cf triple on. unfold on, cf.
  split; [|split].
  - by rewrite (ColorFind_update_name_run name w img "red" _ w eq_refl).
  - by rewrite (ColorFind_update_name_run name w img "green" _ w eq_refl).
  - by rewrite (ColorFind_update_name_run name w img "blue" _ w eq_refl).
Qed.

(** X15.  With the sliders disabled, a name that is no preset leads to no
    detection: OpenCV is not called, two warnings are logged, and the result
    is the one of [update(img, None)]. *)
Theorem ColorFind_update_no_preset `{Cv2} (name : string) (w : world)
    (img : value) (colour : string) :
  let cf := ColorFind.Obj false name in
  colour ≠ "red" → colour ≠ "green" → colour ≠ "blue" →
  fst (ColorFind.update img (VStr colour) (St cf w))
  = fst (ColorFind.update img VNone (St cf w))
  ∧ ∃ w', snd (ColorFind.update img (VStr colour) (St cf w)) = St cf w'
          ∧ warnings w'
            = warnings w ++ ["Color Not Defined";
                             "Available colors: red, green, blue "]
          ∧ stdout w' = stdout w.
Proof.
  intros cf Hred Hgreen Hblue. subst cf.
  set (cf := ColorFind.Obj false name).
  assert (Hname : ColorFind.getColorHSV (VStr colour) (St cf w)
                  = (Return VNone,
                     St cf (warn "Available colors: red, green, blue "
                              (warn "Color Not Defined" w)))).
  { unfold ColorFind.getColorHSV, ColorFind.eq_str.
    by rewrite !bool_decide_eq_false_2 by done. }
  rewrite (ColorFind_update_name_run name w img colour _ _ Hname).
  split; [reflexivity|].
  eexists. split; [reflexivity|]. simpl. by rewrite <- app_assoc.
Qed.

Lemma ColorFind_update_no_preset_witness :
  let cf := ColorFind.Obj false "Bars" in
  let img := VArray (Colour [[(0, 0, 255)]]) in
  ("purple" ≠ "red" ∧ "purple" ≠ "green" ∧ "purple" ≠ "blue")
  ∧ fst (ColorFind.update (H := blank_cv2) img (VStr "purple")
           (St cf running_clock))
    = fst (ColorFind.update (H := blank_cv2) img VNone (St cf running_clock)).
Proof.
  intros cf img.
  assert (Hred : "purple" ≠ "red") by discriminate.
  assert (Hgreen : "purple" ≠ "green") by discriminate.
  assert (Hblue : "purple" ≠ "blue") by discriminate.
  split; [done|].
  exact (proj1 (ColorFind_update_no_preset (H := blank_cv2) "Bars"
                  running_clock img "purple" Hred Hgreen Hblue)).
Defined.

(** X16.  With the sliders enabled, the colour argument is not looked at:
    [update] does the same whatever is passed for it. *)
Theorem ColorFind_update_sliders_ignore_colour `{Cv2} (name : string)
    (w : world) (img colour colour' : value) :
  let cf := ColorFind.Obj true name in
  ColorFind.update img colour (St cf w)
  = ColorFind.update img colour' (St cf w).
Proof.
  intros cf. unfold ColorFind.update, bind at 1, getattr.
  cbn [self ColorFind.trackBar cf]. symmetry.
  unfold bind at 1, getattr. cbn [self ColorFind.trackBar cf].
  unfold bind at 1. symmetry. unfold bind at 1.
  by destruct (ColorFind.getTrackbarValues _) as [[] ?].
Qed.

(** ** Further properties of [ColorFind.protect_region] *)

(** Two lists are equal when the second has, at each place of the first,
    the element [f] makes of the element there. *)
Lemma list_eq_pointwise {A} (f : nat → A → A) (l1 l2 : list A) :
  length l2 = length l1 →
  (∀ i x, l1 !! i = Some x → l2 !! i = Some (f i x)) →
  (∀ i x, l1 !! i = Some x → f i x = x) →
  l2 = l1.
Proof.
  intros Hlen Hf Hid.
  apply (list_eq_same_length _ _ (length l1)); [done..|].
  intros i x y _ Hx Hy. rewrite (Hf _ _ Hy) in Hx. rewrite Hid in Hx by done.
  congruence.
Qed.

Lemma fill_slice_idem {A} (fill : A) (start stop : Z) (row : list A) :
  fill_slice fill start stop (fill_slice fill start stop row)
  = fill_slice fill start stop row.
Proof.
  apply (list_eq_pointwise
           (λ c v, if in_slice (length row) start stop c then fill else v)).
  - by rewrite length_fill_slice.
  - intros c v Hc. erewrite lookup_fill_slice by done.
    by rewrite length_fill_slice.
  - intros c v Hc.
    assert (c < length row)%nat as [v0 Hv0]%lookup_lt_is_Some_2.
    { rewrite <- (length_fill_slice fill start stop). by eapply lookup_lt_Some. }
    rewrite (lookup_fill_slice _ _ _ _ _ _ Hv0) in Hc.
    destruct (in_slice (length row) start stop c); congruence.
Qed.

Lemma fill_slice_comm {A} (fill : A) (a b c d : Z) (row : list A) :
  fill_slice fill a b (fill_slice fill c d row)
  = fill_slice fill c d (fill_slice fill a b row).
Proof.
  apply (list_eq_same_length _ _ (length row));
    [by rewrite !length_fill_slice..|].
  intros i x y Hi Hx Hy.
  apply lookup_lt_is_Some_2 in Hi as [v Hv].
  rewrite (lookup_fill_slice _ _ _ _ _ _
             (lookup_fill_slice fill c d _ _ _ Hv)) in Hx.
  rewrite (lookup_fill_slice _ _ _ _ _ _
             (lookup_fill_slice fill a b _ _ _ Hv)) in Hy.
  rewrite !length_fill_slice in Hx, Hy.
  destruct (in_slice (length row) a b i), (in_slice (length row) c d i);
    congruence.
Qed.

Lemma fill_region_idem {A} (fill : A) (y0 y1 x0 x1 : Z)
    (rows : list (list A)) :
  fill_region fill y0 y1 x0 x1 (fill_region fill y0 y1 x0 x1 rows)
  = fill_region fill y0 y1 x0 x1 rows.
Proof.
  apply (list_eq_pointwise
           (λ r row, if in_slice (length rows) y0 y1 r
                     then fill_slice fill x0 x1 row else row)).
  - by rewrite length_fill_region.
  - intros r row Hr. erewrite lookup_fill_region by done.
    by rewrite length_fill_region.
  - intros r row Hr.
    assert (r < length rows)%nat as [row0 Hrow0]%lookup_lt_is_Some_2.
    { rewrite <- (length_fill_region fill y0 y1 x0 x1).
      by eapply lookup_lt_Some. }
    rewrite (lookup_fill_region _ _ _ _ _ _ _ _ Hrow0) in Hr.
    destruct (in_slice (length rows) y0 y1 r); [|done].
    injection Hr as <-. apply fill_slice_idem.
Qed.

Lemma fill_region_comm {A} (fill : A) (y0 y1 x0 x1 y0' y1' x0' x1' : Z)
    (rows : list (list A)) :
  fill_region fill y0 y1 x0 x1 (fill_region fill y0' y1' x0' x1' rows)
  = fill_region fill y0' y1' x0' x1' (fill_region fill y0 y1 x0 x1 rows).
Proof.
  apply (list_eq_same_length _ _ (length rows));
    [by rewrite !length_fill_region..|].
  intros r x y Hr Hx Hy.
  apply lookup_lt_is_Some_2 in Hr as [row Hrow].
  rewrite (lookup_fill_region _ _ _ _ _ _ _ _
             (lookup_fill_region fill y0' y1' x0' x1' _ _ _ Hrow)) in Hx.
  rewrite (lookup_fill_region _ _ _ _ _ _ _ _
             (lookup_fill_region fill y0 y1 x0 x1 _ _ _ Hrow)) in Hy.
  rewrite !length_fill_region in Hx, Hy.
  destruct (in_slice (length rows) y0 y1 r),
    (in_slice (length rows) y0' y1' r); try congruence.
  injection Hx as <-. injection Hy as <-. apply fill_slice_comm.
Qed.

(** X18.  Protecting is idempotent, and the order of two protections does
    not matter: protecting a region a second time changes nothing, and two
    regions protected one after the other give the same mask in either
    order. *)
Theorem protect_region_idempotent_commutative (cf : ColorFind.t) (w : world)
    (mask : list (list Z)) (x0 x1 y0 y1 x0' x1' y0' y1' : Z) :
  let protect (rect : list Z) (m : value) : M ColorFind.t value :=
    ColorFind.protect_region m (Some rect) in
  let r := [x0; x1; y0; y1] in
  let r' := [x0'; x1'; y0'; y1'] in
  (m <- protect r (VArray (Gray mask)) ;; protect r m) (St cf w)
  = protect r (VArray (Gray mask)) (St cf w)
  ∧ (m <- protect r (VArray (Gray mask)) ;; protect r' m) (St cf w)
    = (m <- protect r' (VArray (Gray mask)) ;; protect r m) (St cf w).
Proof.
  intros protect r r'.
  unfold protect, r, r', ColorFind.protect_region, bind, lift.
  cbn [take setitem_region].
  split.
  - by rewrite fill_region_idem.
  - by rewrite fill_region_comm.
Qed.

Lemma in_slice_whole_axis (n i : nat) :
  (i < n)%nat → in_slice n 0 (Z.of_nat n) i = true.
Proof.
  intros Hi. rewrite in_slice_nonneg by lia. apply bool_decide_eq_true_2. lia.
Qed.

Lemma fill_slice_whole_row {A} (fill : A) (row : list A) :
  fill_slice fill 0 (Z.of_nat (length row)) row = replicate (length row) fill.
Proof.
  apply (list_eq_same_length _ _ (length row));
    [by rewrite length_replicate|by rewrite length_fill_slice|].
  intros c x y Hc Hx Hy.
  destruct (lookup_lt_is_Some_2 row c Hc) as [v Hv].
  rewrite (lookup_fill_slice _ _ _ _ _ _ Hv), in_slice_whole_axis in Hx by done.
  rewrite lookup_replicate_2 in Hy by done. congruence.
Qed.

(** X19.  The rectangle [[0, img.shape[1], 0, img.shape[0]]] protects the
    whole mask, as the docstring says: for a mask of [height] rows of
    [width] elements each, every element of the result is zero. *)
Theorem protect_region_whole_mask (cf : ColorFind.t) (w : world)
    (mask : list (list Z)) (width : nat) :
  let height := length mask in
  Forall (λ row, length row = width) mask →
  ColorFind.protect_region (VArray (Gray mask))
    (Some [0; Z.of_nat width; 0; Z.of_nat height]) (St cf w)
  = (Return (VArray (Gray (replicate height (replicate width 0)))), St cf w).
Proof.
  intros height Hrect.
  unfold ColorFind.protect_region, lift. cbn [take setitem_region].
  do 4 f_equal.
  apply (list_eq_same_length _ _ height);
    [by rewrite length_replicate|by rewrite length_fill_region|].
  intros r x y Hr Hx Hy.
  destruct (lookup_lt_is_Some_2 mask r Hr) as [row Hrow].
  rewrite (lookup_fill_region _ _ _ _ _ _ _ _ Hrow) in Hx.
  rewrite in_slice_whole_axis in Hx by done.
  rewrite lookup_replicate_2 in Hy by done.
  pose proof (Forall_lookup_1 _ _ _ _ Hrect Hrow) as Hlen. simpl in Hlen.
  rewrite <- Hlen in Hx at 1. rewrite fill_slice_whole_row, Hlen in Hx.
  congruence.
Qed.

Lemma protect_region_whole_mask_witness :
  let mask := [[255; 0; 255]; [0; 255; 255]] in
  let cf := ColorFind.Obj false "Bars" in
  Forall (λ row, length row = 3%nat) mask
  ∧ ColorFind.protect_region (VArray (Gray mask)) (Some [0; 3; 0; 2])
      (St cf running_clock)
    = (Return (VArray (Gray [[0; 0; 0]; [0; 0; 0]])), St cf running_clock).
Proof.
  intros mask cf.
  assert (Hrect : Forall (λ row, length row = 3%nat) mask)
    by (repeat constructor).
  split; [exact Hrect|].
  exact (protect_region_whole_mask cf running_clock mask 3 Hrect).
Defined.

Lemma in_slice_reversed (n : nat) (start stop : Z) (i : nat) :
  0 ≤ stop ≤ start → in_slice n start stop i = false.
Proof.
  intros Hrev. unfold in_slice.
  rewrite !slice_bound_nonneg by lia.
  apply bool_decide_eq_false_2. lia.
Qed.

Lemma fill_slice_reversed {A} (fill : A) (start stop : Z) (row : list A) :
  0 ≤ stop ≤ start → fill_slice fill start stop row = row.
Proof.
  intros Hrev.
  apply (list_eq_pointwise
           (λ c v, if in_slice (length row) start stop c then fill else v)).
  - apply length_fill_slice.
  - intros c v Hc. by apply lookup_fill_slice.
  - intros c v _. by rewrite in_slice_reversed.
Qed.

(** X20.  A rectangle whose bounds are in the wrong order protects
    nothing: with no negative bound, and the end of the rows or of the
    columns not after its start, the mask comes back as it was.  The bounds
    are not swapped. *)
Theorem protect_region_reversed_bounds (cf : ColorFind.t) (w : world)
    (mask : list (list Z)) (x0 x1 y0 y1 : Z) :
  0 ≤ y1 ≤ y0 ∨ 0 ≤ x1 ≤ x0 →
  ColorFind.protect_region (VArray (Gray mask)) (Some [x0; x1; y0; y1])
    (St cf w)
  = (Return (VArray (Gray mask)), St cf w).
Proof.
  intros Hrev.
  unfold ColorFind.protect_region, lift. cbn [take setitem_region].
  do 4 f_equal.
  apply (list_eq_pointwise
           (λ r row, if in_slice (length mask) y0 y1 r
                     then fill_slice 0 x0 x1 row else row)).
  - apply length_fill_region.
  - intros r row Hr. by apply lookup_fill_region.
  - intros r row _. destruct Hrev as [Hy|Hx].
    + by rewrite in_slice_reversed.
    + rewrite fill_slice_reversed by done. by destruct (in_slice _ _ _ _).
Qed.

Lemma protect_region_reversed_bounds_witness :
  let mask := [[255; 0; 255]; [0; 255; 255]] in
  let cf := ColorFind.Obj false "Bars" in
  (0 ≤ 0 ≤ 2 ∨ 0 ≤ 3 ≤ 0)
  ∧ ColorFind.protect_region (VArray (Gray mask)) (Some [0; 3; 2; 0])
      (St cf running_clock)
    = (Return (VArray (Gray mask)), St cf running_clock).
Proof.
  intros mask cf.
  assert (Hrev : 0 ≤ 0 ≤ 2 ∨ 0 ≤ 3 ≤ 0) by (left; lia).
  split; [exact Hrev|].
  exact (protect_region_reversed_bounds cf running_clock mask 0 3 2 0 Hrev).
Defined.

(** [protect_region] needs an array.  The empty list that [update]
    returns for the mask when it does no detection is handed back as it is
    when no rectangle is given, and is rejected with [TypeError] when one
    is. *)
Lemma protect_region_after_no_detection `{Cv2} (name : string) (w : world)
    (img : value) (x0 x1 y0 y1 : Z) (rest : list Z) :
  let cf := ColorFind.Obj false name in
  let protected (threshold : option (list Z)) : M ColorFind.t value :=
    (both <- ColorFind.update img VNone ;;
     pair <- lift (unpack2 both) ;;
     ColorFind.protect_region (snd pair) threshold) in
  protected None (St cf w) = (Return (VList []), St cf w)
  ∧ protected (Some (x0 :: x1 :: y0 :: y1 :: rest)) (St cf w)
    = (Raise TypeError, St cf w).
Proof.
  intros cf protected. split; reflexivity.
Qed.

(** X21.  An empty list of bounds is not taken for "no colour".  With the
    sliders disabled, [update(img, [])] goes on to [MaskZone], unlike
    [update(img, None)]: once the image has been converted to HSV, indexing
    the list for its lower bound raises [IndexError], which nothing
    catches; the detector and the world are left as they were. *)
Theorem ColorFind_update_empty_bounds `{Cv2} (name : string) (w : world)
    (img imgHSV : value) :
  let cf := ColorFind.Obj false name in
  cvtColor img COLOR_BGR2HSV = Return imgHSV →
  ColorFind.update img (VList []) (St cf w) = (Raise IndexError, St cf w)
  ∧ ColorFind.update img VNone (St cf w)
    = (Return (VTuple [VTuple [VList []]; VList []]), St cf w).
Proof.
  intros cf Hcvt. subst cf. split; [|reflexivity].
  rewrite ColorFind_update_bounds_run by done.
  unfold ColorFind.MaskZone, bind, lift. by rewrite Hcvt.
Qed.

Lemma ColorFind_update_empty_bounds_witness :
  let cf := ColorFind.Obj false "Bars" in
  let img := VArray (Colour [[(0, 0, 255)]]) in
  cvtColor (Cv2 := blank_cv2) img COLOR_BGR2HSV = Return img
  ∧ ColorFind.update (H := blank_cv2) img (VList []) (St cf running_clock)
    = (Raise IndexError, St cf running_clock).
Proof.
  intros cf img.
  assert (Hcvt : cvtColor (Cv2 := blank_cv2) img COLOR_BGR2HSV = Return img)
    by reflexivity.
  split; [exact Hcvt|].
  exact (proj1 (ColorFind_update_empty_bounds (H := blank_cv2) "Bars"
                  running_clock img img Hcvt)).
Defined.
